(** * MediConnect patient service: a shallow embedding of
    [src/services/patientsService.ts] and the properties of its
    in-memory repository (list / search / paginate, create, update,
    delete).

    JavaScript objects are finite maps from property names to values,
    object spread is map union, arrays are lists, and the module-level
    [MOCK_DB] is threaded explicitly through every operation.  The
    platform built-ins the service calls ([String.prototype.toLowerCase],
    [Date], [crypto.randomUUID]) are not part of the repository: the
    first two are the fields of the class [Engine], the readings of the
    clock and of the UUID generator are arguments of the operations. *)

From Stdlib Require Import ZArith Ascii String List Bool Permutation Sorted Lia.
From stdpp Require Import base option list sorting gmap strings.

Open Scope string_scope.
Open Scope list_scope.
Open Scope Z_scope.

(** ** JavaScript values, objects and outcomes *)

Module JS.

(** The values a [Patient] property can hold: the optional text fields
    are [string | null | undefined], the two scores are numbers and
    [communication_preferences] is an object, of which the service only
    ever copies the reference.  Numbers are the integral ones. *)
Inductive value : Type :=
| VUndefined
| VNull
| VString (s : string)
| VNumber (n : Z)
| VObject (ref : positive).

#[global] Instance value_eq_dec : EqDecision value.
Proof. solve_decision. Defined.

(** A plain object: its own enumerable properties. *)
Abbreviation obj := (gmap string value).

(** [o.k]: reading a property that is not there gives [undefined]. *)
Definition get (o : obj) (k : string) : value := default VUndefined (o !! k).

(** [a === b]. Objects are compared by reference. *)
Definition strict_eq (a b : value) : bool := bool_decide (a = b).

(** ToBoolean. *)
Definition truthy (v : value) : bool :=
  match v with
  | VUndefined | VNull => false
  | VString s => negb (String.eqb s "")
  | VNumber n => negb (n =? 0)
  | VObject _ => true
  end.

(** What an operation can throw. *)
Inductive error : Type :=
| TypeError
| RangeError (message : string)
| Error (message : string).

(** The settled state of the promise an [async] function returns. *)
Inductive result (A : Type) : Type :=
| Ok (a : A)
| Throw (e : error).
Arguments Ok {A} a.
Arguments Throw {A} e.

#[global] Instance result_ret : MRet result := fun A a => Ok a.

#[global] Instance result_bind : MBind result := fun A B k r =>
  match r with
  | Ok a => k a
  | Throw e => Throw e
  end.

(** *** Strings *)

(** [\d] *)
Definition is_digit (c : ascii) : bool :=
  let n := nat_of_ascii c in ((48 <=? n) && (n <=? 57))%nat.

(** [s.replace(/\D+/g, "")]: every maximal run of non-digits is deleted,
    which leaves the digits of [s] in their order. *)
Fixpoint strip_non_digits (s : string) : string :=
  match s with
  | EmptyString => EmptyString
  | String c s' =>
      if is_digit c then String c (strip_non_digits s') else strip_non_digits s'
  end.

(** [s.includes(t)] *)
Fixpoint includes (s t : string) : bool :=
  if String.prefix t s then true
  else match s with
       | EmptyString => false
       | String _ s' => includes s' t
       end.

(** [v.toLowerCase()] on code units below 128. *)
Definition ascii_lower_char (c : ascii) : ascii :=
  let n := nat_of_ascii c in
  if ((65 <=? n) && (n <=? 90))%nat then ascii_of_nat (n + 32) else c.

Fixpoint ascii_toLowerCase (s : string) : string :=
  match s with
  | EmptyString => EmptyString
  | String c s' => String (ascii_lower_char c) (ascii_toLowerCase s')
  end.

Fixpoint ascii_only (s : string) : bool :=
  match s with
  | EmptyString => true
  | String c s' => (nat_of_ascii c <? 128)%nat && ascii_only s'
  end.

(** *** Arrays *)

Section Arrays.
Context {A : Type}.

(** [l.slice(from, to)] for integral arguments: a negative index
    counts from the end, and both ends are clamped to the array. *)
Definition slice (l : list A) (from to : Z) : list A :=
  let len := Z.of_nat (length l) in
  let k := if from <? 0 then Z.max (len + from) 0 else Z.min from len in
  let final := if to <? 0 then Z.max (len + to) 0 else Z.min to len in
  take (Z.to_nat (final - k)) (drop (Z.to_nat k) l).

(** [l.findIndex(f)]: the first index whose element satisfies [f],
    or [-1]. *)
Fixpoint findIndex_from (f : A -> bool) (l : list A) (i : Z) : Z :=
  match l with
  | [] => -1
  | x :: l' => if f x then i else findIndex_from f l' (i + 1)
  end.

Definition findIndex (f : A -> bool) (l : list A) : Z := findIndex_from f l 0.

(** [l.filter(f)] where the callback may throw: the elements are
    visited in order and the first exception aborts the call. *)
Fixpoint filter (f : A -> result bool) (l : list A) : result (list A) :=
  match l with
  | [] => Ok []
  | x :: l' =>
      b ← f x;
      r ← filter f l';
      Ok (if (b : bool) then x :: r else r)
  end.

(** [l.sort(cmp)]: the comparator answers a number, [None] standing
    for [NaN], which [sort] reads as [+0].  The sort is stable; it is
    written as an insertion sort, each element is put in front of the
    first element it does not have to follow. *)
Definition comes_after (cmp : A -> A -> option Z) (x y : A) : bool :=
  match cmp x y with
  | Some v => 0 <? v
  | None => false
  end.

Fixpoint sort_insert (cmp : A -> A -> option Z) (x : A) (l : list A) : list A :=
  match l with
  | [] => [x]
  | y :: l' => if comes_after cmp x y then y :: sort_insert cmp x l' else x :: l
  end.

Definition sort (cmp : A -> A -> option Z) (l : list A) : list A :=
  foldr (sort_insert cmp) [] l.
End Arrays.

End JS.

Import JS.

(** ** The platform

    [toLowerCase s] is [s.toLowerCase()]; [toISOString t] is
    [new Date(t).toISOString()] for the instant [t], in milliseconds
    since the epoch; [Date_parse s] is [new Date(s).getTime()], with
    [None] for [NaN]. *)
Class Engine : Type := {
  toLowerCase : string -> string;
  toISOString : Z -> string;
  Date_parse : string -> option Z;
}.

(** *** A reference engine

    Lower-casing of the ASCII letters, and the simplified ISO 8601
    format [YYYY-MM-DDTHH:mm:ss.sssZ] that [toISOString] writes (with a
    sign and six digits for a year outside 0..9999), read back by a
    parser that knows this format only. *)
Module Reference.

Definition digit_char (d : Z) : ascii := ascii_of_nat (48 + Z.to_nat d).

(** [n] in [width] decimal digits, zero-padded. *)
Fixpoint pad (width : nat) (n : Z) : string :=
  match width with
  | O => EmptyString
  | S w => (pad w (n / 10) ++ String (digit_char (n mod 10)) EmptyString)%string
  end.

(** Day number since 1970-01-01 to proleptic Gregorian date. *)
Definition civil_from_days (days : Z) : Z * Z * Z :=
  let z := days + 719468 in
  let era := z / 146097 in
  let doe := z - era * 146097 in
  let yoe := (doe - doe / 1460 + doe / 36524 - doe / 146096) / 365 in
  let doy := doe - (365 * yoe + yoe / 4 - yoe / 100) in
  let mp := (5 * doy + 2) / 153 in
  let d := doy - (153 * mp + 2) / 5 + 1 in
  let m := if mp <? 10 then mp + 3 else mp - 9 in
  let y := yoe + era * 400 in
  (if m <=? 2 then y + 1 else y, m, d).

Definition days_from_civil (y m d : Z) : Z :=
  let y := if m <=? 2 then y - 1 else y in
  let era := y / 400 in
  let yoe := y - era * 400 in
  let doy := (153 * (if 2 <? m then m - 3 else m + 9) + 2) / 5 + d - 1 in
  let doe := yoe * 365 + yoe / 4 - yoe / 100 + doy in
  era * 146097 + doe - 719468.

Definition ms_per_day : Z := 86400000.

Definition format_year (y : Z) : string :=
  if (0 <=? y) && (y <=? 9999) then pad 4 y
  else if y <? 0 then String "-" (pad 6 (- y))
  else String "+" (pad 6 y).

Definition iso_toISOString (t : Z) : string :=
  let '(y, m, d) := civil_from_days (t / ms_per_day) in
  let r := t mod ms_per_day in
  (format_year y ++ "-" ++ pad 2 m ++ "-" ++ pad 2 d ++ "T"
   ++ pad 2 (r / 3600000) ++ ":" ++ pad 2 (r / 60000 mod 60) ++ ":"
   ++ pad 2 (r / 1000 mod 60) ++ "." ++ pad 3 (r mod 1000) ++ "Z")%string.

(** Exactly [width] digits, then the rest. *)
Fixpoint read_digits (width : nat) (acc : Z) (s : string) : option (Z * string) :=
  match width with
  | O => Some (acc, s)
  | S w =>
      match s with
      | String c s' =>
          if is_digit c
          then read_digits w (10 * acc + Z.of_nat (nat_of_ascii c) - 48) s'
          else None
      | EmptyString => None
      end
  end.

Definition read_char (c : ascii) (s : string) : option string :=
  match s with
  | String c' s' => if Ascii.eqb c c' then Some s' else None
  | EmptyString => None
  end.

Definition read_year (s : string) : option (Z * string) :=
  match s with
  | String "+" s' => read_digits 6 0 s'
  | String "-" s' => '(y, s'') ← read_digits 6 0 s'; Some (- y, s'')
  | _ => read_digits 4 0 s
  end.

Definition iso_parse (s : string) : option Z :=
  '(y, s) ← read_year s;
  s ← read_char "-" s;
  '(m, s) ← read_digits 2 0 s;
  s ← read_char "-" s;
  '(d, s) ← read_digits 2 0 s;
  s ← read_char "T" s;
  '(hh, s) ← read_digits 2 0 s;
  s ← read_char ":" s;
  '(mm, s) ← read_digits 2 0 s;
  s ← read_char ":" s;
  '(ss, s) ← read_digits 2 0 s;
  s ← read_char "." s;
  '(ms, s) ← read_digits 3 0 s;
  s ← read_char "Z" s;
  let days := days_from_civil y m d in
  if String.eqb s "" && (1 <=? m) && (m <=? 12) && (1 <=? d)
     && bool_decide (civil_from_days days = (y, m, d))
     && (hh <? 24) && (mm <? 60) && (ss <? 60)
  then Some (days * ms_per_day + hh * 3600000 + mm * 60000 + ss * 1000 + ms)
  else None.

#[global] Instance engine : Engine := {|
  toLowerCase := ascii_toLowerCase;
  toISOString := iso_toISOString;
  Date_parse := iso_parse;
|}.

End Reference.

(** ** The service *)

(** [interface Patient] of [types/patient.ts], as the object it is at
    run time; a [PatientInsert] and a [PatientUpdate] are objects too. *)
Abbreviation Patient := (gmap string value).

(** An absent parameter takes its default. *)
Record ListPatientsParams : Type := {
  page : option Z;
  pageSize : option Z;
  search : option string;
}.

Record ListPatientsResult : Type := {
  data : list Patient;
  count : Z;
}.

Section PatientsService.
Context `{Engine}.

(** [(v || "").replace(/\D+/g, "")]; a truthy [v] that is no string
    has no [replace]. *)
Definition onlyDigits (v : value) : result string :=
  match (if truthy v then v else VString "") with
  | VString s => Ok (strip_non_digits s)
  | _ => Throw TypeError
  end.

(** [v.toLowerCase()] for a property [v] *)
Definition lowered (v : value) : result string :=
  match v with
  | VString s => Ok (toLowerCase s)
  | _ => Throw TypeError
  end.

Definition matchesSearch (p : Patient) (term : string) : result bool :=
  if String.eqb term "" then Ok true
  else
    let t := toLowerCase term in
    cpf ← onlyDigits (get p "cpf");
    name ← lowered (get p "full_name");
    if includes name t then Ok true
    else
      digits ← onlyDigits (VString t);
      Ok (includes cpf digits).

(** [new Date(v).getTime()]: a string is parsed, a number is a time
    value when it is in range, [null] is the epoch, and an object is
    parsed through its string form. *)
Definition getTime (v : value) : option Z :=
  match v with
  | VUndefined => None
  | VNull => Some 0
  | VString s => Date_parse s
  | VNumber n => if Z.abs n <=? 8640000000000000 then Some n else None
  | VObject _ => Date_parse "[object Object]"
  end.

(** [a.created_at ? new Date(a.created_at).getTime() : 0] *)
Definition created_time (a : Patient) : option Z :=
  if truthy (get a "created_at") then getTime (get a "created_at") else Some 0.

(** The comparator of [listPatients]: [bd - ad]. *)
Definition by_created_at_desc (a b : Patient) : option Z :=
  ad ← created_time a;
  bd ← created_time b;
  Some (bd - ad).

Definition listPatients (params : ListPatientsParams) (MOCK_DB : list Patient)
  : result ListPatientsResult :=
  let page := default 1 (page params) in
  let pageSize := default 10 (pageSize params) in
  let search := default "" (search params) in
  let sorted := sort by_created_at_desc MOCK_DB in
  filtered ← JS.filter (fun p => matchesSearch p search) sorted;
  let count := Z.of_nat (length filtered) in
  let from := (page - 1) * pageSize in
  let to := from + pageSize in
  let data := slice filtered from to in
  Ok {| data := data; count := count |}.

(** [MOCK_DB.find(...) ?? null], [None] being [null]. *)
Definition getPatientById (id : string) (MOCK_DB : list Patient)
  : result (option Patient) :=
  Ok (List.find (fun p => strict_eq (get p "id") (VString id)) MOCK_DB).

(** The mutators answer the settled promise and the new [MOCK_DB].
    [now] is the reading of the clock by [new Date()], [uuid] the
    answer of [crypto.randomUUID()]. *)
Definition createPatient (now : Z) (uuid : string) (payload : obj)
  (MOCK_DB : list Patient) : result Patient * list Patient :=
  let now := toISOString now in
  let entity : Patient :=
    <["updated_at" := VString now]>
      (<["created_at" := VString now]>
        (<["id" := VString uuid]> payload)) in
  (Ok entity, MOCK_DB ++ [entity]).

Definition updatePatient (now : Z) (payload : obj) (MOCK_DB : list Patient)
  : result Patient * list Patient :=
  let idx := findIndex (fun p => strict_eq (get p "id") (get payload "id")) MOCK_DB in
  if idx <? 0 then (Throw (Error "Paciente não encontrado"), MOCK_DB)
  else
    let updated : Patient :=
      <["updated_at" := VString (toISOString now)]>
        (payload ∪ default ∅ (MOCK_DB !! Z.to_nat idx)) in
    (Ok updated, <[Z.to_nat idx := updated]> MOCK_DB).

Definition deletePatient (id : string) (MOCK_DB : list Patient)
  : result unit * list Patient :=
  (Ok tt, List.filter (fun p => negb (strict_eq (get p "id") (VString id))) MOCK_DB).

(** *** Histories of the store

    [MOCK_DB] starts empty and only the three mutators touch it. *)
Inductive call : Type :=
| Create (now : Z) (uuid : string) (payload : obj)
| Update (now : Z) (payload : obj)
| Delete (id : string).

Definition exec (MOCK_DB : list Patient) (c : call) : list Patient :=
  match c with
  | Create now uuid payload => (createPatient now uuid payload MOCK_DB).2
  | Update now payload => (updatePatient now payload MOCK_DB).2
  | Delete id => (deletePatient id MOCK_DB).2
  end.

Definition run (history : list call) : list Patient := foldl exec [] history.


Definition issued_by (c : call) : list string :=
  match c with
  | Create _ uuid _ => [uuid]
  | _ => []
  end.

Definition issued_ids (history : list call) : list string := concat (map issued_by history).
End PatientsService.


(** ** What the types and the form promise

    The service checks none of this: it relies on the TypeScript types
    of its arguments and on the validation done by the form
    ([FormSchema] in the patient form page). *)

Definition is_string (v : value) : bool :=
  match v with VString _ => true | _ => false end.

(** [full_name: string; cpf: string], the two required properties the
    search reads. *)
Definition typed_Patient (p : Patient) : bool :=
  is_string (get p "full_name") && is_string (get p "cpf").

(** [PatientUpdate = Partial<PatientInsert> & { id: string }], where
    [PatientInsert] omits [id], [created_at] and [updated_at]: the
    payload of an update has a string [id] and no timestamp of its own. *)
Definition typed_PatientUpdate (payload : obj) : Prop :=
  is_string (get payload "id") = true ∧
  payload !! "created_at" = None ∧ payload !! "updated_at" = None.

Fixpoint all_digits (s : string) : bool :=
  match s with
  | EmptyString => true
  | String c s' => is_digit c && all_digits s'
  end.

Fixpoint no_digit (s : string) : bool :=
  match s with
  | EmptyString => true
  | String c s' => negb (is_digit c) && no_digit s'
  end.

Definition digits_only (v : value) : Prop :=
  ∃ s, v = VString s ∧ all_digits s = true.

(** [cpf] is a string of exactly 11 digits, [phone_primary] one of at
    least 10 digits. *)
Definition valid_cpf (v : value) : Prop :=
  ∃ s, v = VString s ∧ all_digits s = true ∧ String.length s = 11%nat.

Definition valid_phone (v : value) : Prop :=
  ∃ s, v = VString s ∧ all_digits s = true ∧ (10 <= String.length s)%nat.

(** The contract on the payload of a creation, and on the payload of
    an update, which may leave either property out. *)
Definition validated_insert (payload : obj) : Prop :=
  (∃ v, payload !! "cpf" = Some v ∧ valid_cpf v) ∧
  (∃ v, payload !! "phone_primary" = Some v ∧ valid_phone v).

Definition validated_update (payload : obj) : Prop :=
  (∀ v, payload !! "cpf" = Some v → valid_cpf v) ∧
  (∀ v, payload !! "phone_primary" = Some v → valid_phone v).

Section Contracts.
Context `{Engine}.

(** Lower-casing neither adds nor removes nor moves a digit, and on
    ASCII text it is the ASCII lower-casing. *)
Definition lowercase_keeps_digits : Prop :=
  ∀ s, strip_non_digits (toLowerCase s) = strip_non_digits s.

Definition lowercase_ascii : Prop :=
  ∀ s, ascii_only s = true → toLowerCase s = ascii_toLowerCase s.

(** The instant [t] is one the clock can show: its ISO string is not
    empty and reads back as [t]. *)
Definition clock_ok (t : Z) : Prop :=
  toISOString t ≠ "" ∧ Date_parse (toISOString t) = Some t.

(** The instant a stored timestamp denotes. *)
Definition instant (v : value) : option Z :=
  match v with
  | VString s => Date_parse s
  | _ => None
  end.


Definition validated (c : call) : Prop :=
  match c with
  | Create _ _ payload => validated_insert payload
  | Update _ payload => validated_update payload
  | Delete _ => True
  end.

Definition typed (c : call) : Prop :=
  match c with
  | Update _ payload => typed_PatientUpdate payload
  | _ => True
  end.
End Contracts.

(** [ceil(n / p)] *)
Definition ceil_div (n p : Z) : Z := (n + p - 1) / p.

(** ** The callers: the patient form page and the patient list page *)

(** *** The regular expressions of the masks

    [replace] without the [g] flag rewrites the leftmost match only.
    The masks use two shapes of pattern: [n] digits followed by one
    more digit, and [n] digits followed by one to [m] digits that end
    the string. *)

(** The string begins with [n] digits. *)
Fixpoint digits_ahead (n : nat) (s : string) : bool :=
  match n with
  | O => true
  | S n' =>
      match s with
      | String c s' => is_digit c && digits_ahead n' s'
      | EmptyString => false
      end
  end.

(** [sep] put after the first [n] characters. *)
Fixpoint insert_after (n : nat) (sep s : string) : string :=
  match n with
  | O => sep +:+ s
  | S n' =>
      match s with
      | String c s' => String c (insert_after n' sep s')
      | EmptyString => sep
      end
  end.

(** [s.replace(/(\d{n})(\d)/, pre + "$1" + sep + "$2")] *)
Fixpoint replace_digits (n : nat) (pre sep s : string) : string :=
  if digits_ahead (S n) s then pre +:+ insert_after n sep s
  else match s with
       | EmptyString => EmptyString
       | String c s' => String c (replace_digits n pre sep s')
       end.

(** What follows the first [n] characters. *)
Fixpoint string_drop (n : nat) (s : string) : string :=
  match n with
  | O => s
  | S n' =>
      match s with
      | String _ s' => string_drop n' s'
      | EmptyString => EmptyString
      end
  end.

(** [s.replace(/(\d{n})(\d{1,m})$/, "$1" + sep + "$2")] *)
Fixpoint replace_digits_at_end (n m : nat) (sep s : string) : string :=
  let rest := string_drop n s in
  if digits_ahead n s && all_digits rest
     && (1 <=? String.length rest)%nat && (String.length rest <=? m)%nat
  then insert_after n sep s
  else match s with
       | EmptyString => EmptyString
       | String c s' => String c (replace_digits_at_end n m sep s')
       end.

(** *** The form page: masks, rules, handlers *)

(** [maskCPF], [maskPhone] and [maskCEP]; [s.slice(0, n)] keeps the
    first [n] characters. *)
Definition maskCPF (v : value) : result string :=
  digits ← onlyDigits v;
  let s := String.substring 0 11 digits in
  Ok (replace_digits_at_end 3 2 "-"
        (replace_digits 3 "" "." (replace_digits 3 "" "." s))).

Definition maskPhone (v : value) : result string :=
  digits ← onlyDigits v;
  let s := String.substring 0 11 digits in
  if (String.length s <=? 10)%nat
  then Ok (replace_digits_at_end 4 4 "-" (replace_digits 2 "(" ") " s))
  else Ok (replace_digits_at_end 5 4 "-" (replace_digits 2 "(" ") " s)).

Definition maskCEP (v : value) : result string :=
  digits ← onlyDigits v;
  let s := String.substring 0 8 digits in
  Ok (replace_digits_at_end 5 3 "-" s).

(** The rules of [FormSchema] for the identifiers.  A rule answers the
    value that goes into the payload, or [None] when the input is
    refused (with a message the form displays). *)

(** [z.string().min(1, ..).transform(onlyDigits).refine((v) => v.length === 11, ..)] *)
Definition FormSchema_cpf (v : value) : result (option value) :=
  match v with
  | VString s =>
      if (String.length s <? 1)%nat then Ok None
      else
        digits ← onlyDigits (VString s);
        Ok (if (String.length digits =? 11)%nat then Some (VString digits) else None)
  | _ => Ok None
  end.

(** [z.string().min(1, ..).transform(onlyDigits).refine((v) => v.length >= 10, ..)] *)
Definition FormSchema_phone_primary (v : value) : result (option value) :=
  match v with
  | VString s =>
      if (String.length s <? 1)%nat then Ok None
      else
        digits ← onlyDigits (VString s);
        Ok (if (10 <=? String.length digits)%nat then Some (VString digits) else None)
  | _ => Ok None
  end.

(** [z.string().optional().transform((v) => (v ? onlyDigits(v) : undefined))],
    the rule of [phone_secondary] and of [address_zip_code]. *)
Definition FormSchema_optional_digits (v : value) : result (option value) :=
  match v with
  | VString _ | VUndefined =>
      if truthy v then digits ← onlyDigits v; Ok (Some (VString digits))
      else Ok (Some VUndefined)
  | _ => Ok None
  end.

(** The same, with [.refine((v) => !v || v.length === 11, ..)]: the
    rule of [responsible_cpf]. *)
Definition FormSchema_responsible_cpf (v : value) : result (option value) :=
  out ← FormSchema_optional_digits v;
  match out with
  | Some (VString digits) =>
      Ok (if negb (truthy (VString digits)) || (String.length digits =? 11)%nat
          then Some (VString digits) else None)
  | _ => Ok out
  end.

(** [z.string().optional().or(z.literal("")).transform((v) => v || undefined)],
    the rule of the optional text fields. *)
Definition FormSchema_optional_text (v : value) : result (option value) :=
  match v with
  | VString _ | VUndefined => Ok (Some (if truthy v then v else VUndefined))
  | _ => Ok None
  end.

(** [services/cep.ts]: the address of a postal code, the same for all. *)
Record AddressData : Type := {
  street : string;
  district : string;
  city : string;
  state : string;
}.

Definition fetchAddressByZipCode (zip : string) : result AddressData :=
  Ok {| street := "Rua das Palmeiras"; district := "Centro";
        city := "São Paulo"; state := "SP" |}.

(** [handleCepBlur] on the values of the form and the flag
    [isFetchingAddress]: it answers how the call settles and what the
    two are afterwards; the flag is raised before the lookup and
    lowered in the [finally]. *)
Definition handleCepBlur (form : obj) (isFetchingAddress : bool)
    : result unit * (obj * bool) :=
  let zip := get form "address_zip_code" in
  match onlyDigits (if truthy zip then zip else VString "") with
  | Throw e => (Throw e, (form, isFetchingAddress))
  | Ok cep =>
      if negb (String.length cep =? 8)%nat then (Ok tt, (form, isFetchingAddress))
      else
        match fetchAddressByZipCode cep with
        | Ok res =>
            (Ok tt,
             (<["address_state" := VString (state res)]>
                (<["address_city" := VString (city res)]>
                   (<["address_district" := VString (district res)]>
                      (<["address_street" := VString (street res)]> form))), false))
        | Throw e => (Throw e, (form, false))
        end
  end.

(** A toast and the route gone to, if any. *)
Record Toast : Type := {
  title : string;
  description : option string;
}.

Section FormPage.
Context `{Engine}.

(** [e?.message ?? ""]; a [TypeError] carries the engine's message. *)
Definition message_of (engine_message : string) (e : error) : string :=
  match e with
  | Error message | RangeError message => message
  | TypeError => engine_message
  end.

(** [format(date, "yyyy-MM-dd")] of date-fns, on the time value of a
    [Date], [None] being that of an invalid date, on which it throws;
    [yyyy_MM_dd] writes the day of an instant in the local time zone. *)
Definition format (yyyy_MM_dd : Z → string) (date : option Z) : result string :=
  match date with
  | Some t => Ok (yyyy_MM_dd t)
  | None => Throw (RangeError "Invalid time value")
  end.

(** [onSubmit]: [id] is the parameter of the route ([isEdit] is
    [Boolean(id)]) and [birth_date] the time value of
    [values.birth_date].  The payload is built before the [try], so
    what [format] throws rejects the call; inside the [try] every
    outcome ends in a toast.  It answers how the call settles (the
    toast shown and the route navigated to, if any) and the store. *)
Definition onSubmit (yyyy_MM_dd : Z → string) (now : Z) (uuid engine_message : string)
    (id : option string) (values : obj) (birth_date : option Z) (MOCK_DB : list Patient)
    : result (Toast * option string) * list Patient :=
  match format yyyy_MM_dd birth_date with
  | Throw e => (Throw e, MOCK_DB)
  | Ok formatted =>
      let payload : obj := <["birth_date" := VString formatted]> values in
      let isEdit := match id with Some i => truthy (VString i) | None => false end in
      let saved :=
        match id with
        | Some i =>
            if isEdit
            then (updatePatient now (payload ∪ {[ "id" := VString i ]}) MOCK_DB,
                  "Paciente atualizado com sucesso")
            else (createPatient now uuid payload MOCK_DB, "Paciente criado com sucesso")
        | None => (createPatient now uuid payload MOCK_DB, "Paciente criado com sucesso")
        end in
      match saved with
      | ((Ok _, after), success) =>
          (Ok ({| title := success; description := None |}, Some "/patients"), after)
      | ((Throw e, after), _) =>
          (Ok ({| title := "Erro ao salvar paciente";
                  description := Some (message_of engine_message e) |}, None), after)
      end
  end.
End FormPage.

(** *** The list page: the pager *)

Definition PAGE_SIZE : Z := 10.

(** [Math.max(1, Math.ceil(total / PAGE_SIZE))] *)
Definition totalPages (total : Z) : Z := Z.max 1 (ceil_div total PAGE_SIZE).

(** The two buttons: [setPage((p) => Math.max(1, p - 1))] and
    [setPage((p) => Math.min(totalPages, p + 1))]; each is disabled at
    its end. *)
Definition previous_page (page : Z) : Z :=
  if page <=? 1 then page else Z.max 1 (page - 1).

Definition next_page (total page : Z) : Z :=
  if totalPages total <=? page then page else Z.min (totalPages total) (page + 1).

(** ** What the service reads

    A record [matchesSearch] can read: [full_name] has a
    [toLowerCase], and [cpf] is a string or is falsy, in which case
    [onlyDigits] reads the empty string instead. *)
Definition searchable (p : Patient) : bool :=
  is_string (get p "full_name") &&
  (is_string (get p "cpf") || negb (truthy (get p "cpf"))).

(** The readings of the clock taken by [createPatient], in order. *)
Definition creation_readings (history : list call) : list Z :=
  concat (map (λ c, match c with Create now _ _ => [now] | _ => [] end) history).

(** ** Sample data

    The records of the scenarios of the specification, stored by the
    reference engine. *)
Module Sample.

Definition maria : obj :=
  {[ "full_name" := VString "Maria Silva"; "cpf" := VString "12345678901";
     "phone_primary" := VString "11987654321"; "birth_date" := VString "1985-03-20" ]}.

Definition ana : obj :=
  {[ "full_name" := VString "Ana Lima"; "cpf" := VString "11122233344";
     "phone_primary" := VString "11999998888"; "birth_date" := VString "1990-05-10" ]}.

Definition joao : obj :=
  {[ "full_name" := VString "João Souza"; "cpf" := VString "98765432100";
     "phone_primary" := VString "21912345678"; "birth_date" := VString "1978-11-02";
     "email" := VNull; "behavior_score" := VNumber 7;
     "communication_preferences" := VObject 1 ]}.

Definition id1 : string := "3b241101-e2bb-4255-8caf-4136c566a962".
Definition id2 : string := "9f1c2d3e-4a5b-4c6d-8e7f-0a1b2c3d4e5f".
Definition id3 : string := "0d9e8f7a-6b5c-4d3e-9f2a-1b0c9d8e7f6a".

(** 2023-11-14T22:13:20.000Z, and one and two minutes later. *)
Definition T1 : Z := 1700000000000.
Definition T2 : Z := 1700000060000.
Definition T3 : Z := 1700000120000.

Definition history : list call :=
  [Create T1 id1 maria; Create T2 id2 ana; Create T3 id3 joao].

Definition store : list Patient := run history.

(** A longer history: Ana moves, Maria is renamed, João leaves. *)
Definition later : list call :=
  history ++
  [Update (T3 + 1000) {[ "id" := VString id2; "address_city" := VString "São Paulo" ]};
   Update (T3 + 1000) {[ "id" := VString id1; "full_name" := VString "Maria S. Lima";
                         "cpf" := VString "12345678901" ]};
   Delete id3].

(** A record that was never given a [created_at], and a store that
    holds it. *)
Definition legacy : Patient :=
  {[ "id" := VString "legacy-0001"; "full_name" := VString "Registro Antigo";
     "cpf" := VString "00011122233"; "phone_primary" := VString "1133334444";
     "birth_date" := VString "1960-01-01" ]}.

Definition archive : list Patient := legacy :: store.

(** The update of the end-to-end scenario, and a rename. *)
Definition move_ana : obj :=
  {[ "id" := VString id2; "address_city" := VString "São Paulo" ]}.

Definition rename_maria : obj :=
  {[ "id" := VString id1; "full_name" := VString "X" ]}.

Definition rename_nobody : obj :=
  {[ "id" := VString "no-such-id"; "full_name" := VString "X" ]}.

(** Ana as [createPatient] stored her. *)
Definition ana_stored : Patient :=
  <["updated_at" := VString "2023-11-14T22:14:20.000Z"]>
    (<["created_at" := VString "2023-11-14T22:14:20.000Z"]>
       (<["id" := VString id2]> ana)).

Definition id4 : string := "7c9e6679-7425-40de-944b-e07fc1f90ae7".

(** A payload that the type [PatientUpdate] does not allow. *)
Definition backdate_maria : obj :=
  {[ "id" := VString id1; "created_at" := VString "2001-01-01T00:00:00.000Z" ]}.




(** Maria and Ana created within the same millisecond, João later. *)
Definition twins : list call :=
  [Create T1 id1 maria; Create T1 id2 ana; Create T2 id3 joao].

End Sample.

(** The values of a form as the rules let them through, and a form
    with a postal code as it is typed. *)
Module Scenario.

Definition values : obj :=
  {[ "full_name" := VString "Ana Lima"; "cpf" := VString "11122233344";
     "phone_primary" := VString "11999998888"; "social_name" := VUndefined ]}.

Definition address_form : obj :=
  {[ "address_zip_code" := VString "01310-100"; "address_number" := VString "1000" ]}.

(** The day of an instant in a zone without offset (for a year of four
    digits), and midnight of 1990-05-10 there. *)
Definition yyyy_MM_dd (t : Z) : string :=
  String.substring 0 10 (Reference.iso_toISOString t).

Definition birth : Z := 642297600000.

(** Eleven records, one more than a page of the list holds. *)
Definition crowd : list Patient :=
  map (λ k, {[ "id" := VString (Reference.pad 2 (Z.of_nat k));
               "full_name" := VString "Paciente"; "cpf" := VString "00000000000" ]})
      (seq 0 11).

End Scenario.

(** * Properties *)

(** Closed goals about the sample data are settled by evaluation;
    [each_stored Hp] takes a record [p] of a concrete store, by the
    hypothesis [Hp : p ∈ _], to each record of that store in turn. *)
Ltac by_evaluation :=
  vm_compute; repeat split; first [reflexivity | discriminate | congruence | lia].

Ltac each_stored Hp :=
  apply list_elem_of_In in Hp; simpl in Hp;
  repeat (destruct Hp as [<- | Hp]); [.. | destruct Hp].

(** ** Strings *)

Section StringFacts.

Lemma append_cons (c : ascii) (a b : string) :
  (String c a +:+ b) = String c (a +:+ b).
Proof. reflexivity. Qed.

Lemma prefix_spec (t s : string) :
  String.prefix t s = true ↔ ∃ b, s = t +:+ b.
Proof.
  revert s. induction t as [|c t IH]; intros s.
  - destruct s; (split; [intros _; by eexists | done]).
  - destruct s as [|c' s]; simpl.
    + split; [done | intros [b Hb]; discriminate].
    + destruct (Ascii.ascii_dec c c') as [->|Hne].
      * rewrite IH. split; intros [b Hb]; exists b; [by rewrite Hb | ].
        rewrite append_cons in Hb. congruence.
      * split; [done | intros [b Hb]]. rewrite append_cons in Hb. congruence.
Qed.

Lemma includes_unfold (s t : string) :
  includes s t =
    if String.prefix t s then true
    else match s with
         | EmptyString => false
         | String _ s' => includes s' t
         end.
Proof. by destruct s. Qed.

(** [includes] decides the substring relation. *)
Lemma includes_spec (s t : string) :
  includes s t = true ↔ ∃ a b, s = a +:+ t +:+ b.
Proof.
  induction s as [|c s IH]; rewrite includes_unfold.
  - destruct (String.prefix t "") eqn:Hp.
    + apply prefix_spec in Hp as [b Hb]. split; [intros _ | done].
      by exists "", b.
    + split; [done | intros (a & b & Hab)].
      destruct a; [| discriminate].
      assert (String.prefix t "" = true) by (apply prefix_spec; eauto).
      congruence.
  - destruct (String.prefix t (String c s)) eqn:Hp.
    + apply prefix_spec in Hp as [b Hb]. split; [intros _ | done].
      by exists "", b.
    + rewrite IH. split.
      * intros (a & b & ->). by exists (String c a), b.
      * intros (a & b & Hab). destruct a as [|c' a].
        -- assert (String.prefix t (String c s) = true)
             by (apply prefix_spec; eauto).
           congruence.
        -- rewrite append_cons in Hab. injection Hab as -> ->. eauto.
Qed.

Lemma includes_empty (s : string) : includes s "" = true.
Proof. by destruct s. Qed.

(** A string without a digit normalizes to the empty string. *)
Lemma strip_no_digit (s : string) :
  no_digit s = true → strip_non_digits s = "".
Proof.
  induction s as [|c s IH]; simpl; [done |].
  destruct (is_digit c); simpl; [done | exact IH].
Qed.

Lemma strip_all_digits (s : string) :
  all_digits s = true → strip_non_digits s = s.
Proof.
  induction s as [|c s IH]; simpl; [done |].
  destruct (is_digit c); simpl; [| done]. intros Hs. by rewrite IH.
Qed.

Lemma ascii_lower_char_digit (c : ascii) :
  is_digit (ascii_lower_char c) = is_digit c ∧
  (is_digit c = true → ascii_lower_char c = c).
Proof.
  destruct c as [[] [] [] [] [] [] [] []]; vm_compute; split; congruence.
Qed.

Lemma ascii_toLowerCase_keeps_digits (s : string) :
  strip_non_digits (ascii_toLowerCase s) = strip_non_digits s.
Proof.
  induction s as [|c s IH]; simpl; [done |].
  destruct (ascii_lower_char_digit c) as [-> Hc].
  destruct (is_digit c); [rewrite Hc, IH |]; done.
Qed.

End StringFacts.

(** ** Arrays *)

Section ArrayFacts.
Context {A : Type}.
Implicit Types l : list A.

(** With a start that is not negative, [slice] is a window of at
    most [n] elements that begins at [from]. *)
Lemma slice_window l (from n : Z) :
  0 <= from → 0 <= n →
  slice l from (from + n) = take (Z.to_nat n) (drop (Z.to_nat from) l).
Proof.
  intros Hfrom Hn. unfold slice.
  destruct (Z.ltb_spec from 0) as [|_]; [lia |].
  destruct (Z.ltb_spec (from + n) 0) as [|_]; [lia |].
  destruct (Z.le_gt_cases (Z.of_nat (length l)) from) as [Hout | Hin].
  - rewrite (drop_ge l (Z.to_nat from)) by lia.
    rewrite Z.min_r by lia. rewrite (drop_ge l) by lia. by rewrite !take_nil.
  - rewrite (Z.min_l from) by lia.
    destruct (Z.le_gt_cases (Z.of_nat (length l)) (from + n)) as [Hend | Hend].
    + rewrite Z.min_r by lia.
      rewrite !take_ge; [done | |]; rewrite length_drop; lia.
    + rewrite Z.min_l by lia. f_equal. lia.
Qed.

(** Consecutive windows of the same width tile a prefix of the list. *)
Lemma windows_concat l (width n : nat) :
  concat (map (λ k, take width (drop (k * width) l)) (seq 0 n)) = take (n * width) l.
Proof.
  induction n as [|n IH]; [done |].
  rewrite seq_S, map_app, concat_app, IH. simpl.
  rewrite app_nil_r.
  rewrite <- (take_drop (n * width) (take (width + n * width) l)) at 1.
  rewrite take_take, Nat.min_l by lia. f_equal.
  rewrite take_drop_commute. f_equal. f_equal. lia.
Qed.

Lemma window_nonempty l (width k : nat) :
  take width (drop k l) ≠ [] ↔ (0 < width ∧ k < length l)%nat.
Proof.
  split.
  - intros Hne. split.
    + destruct width; [by rewrite take_0 in Hne | lia].
    + destruct (Nat.le_gt_cases (length l) k); [| done].
      by rewrite drop_ge, take_nil in Hne.
  - intros [Hw Hk] Hnil. apply (f_equal length) in Hnil.
    rewrite length_take, length_drop in Hnil. simpl in Hnil. lia.
Qed.

(** A callback that never throws makes [filter] the usual one. *)
Lemma filter_Ok (f : A → result bool) (g : A → bool) l :
  Forall (λ x, f x = Ok (g x)) l → JS.filter f l = Ok (List.filter g l).
Proof.
  induction 1 as [|x l Hx _ IH]; [done |].
  simpl. rewrite Hx, IH. simpl. by destruct (g x).
Qed.

Lemma sort_insert_Permutation (cmp : A → A → option Z) x l :
  sort_insert cmp x l ≡ₚ x :: l.
Proof.
  induction l as [|y l IH]; [done |]. simpl.
  destruct (comes_after cmp x y); [| done].
  rewrite IH. apply Permutation_swap.
Qed.

(** [sort] rearranges, it neither drops nor invents an element. *)
Lemma sort_Permutation (cmp : A → A → option Z) l : sort cmp l ≡ₚ l.
Proof.
  induction l as [|x l IH]; [done |].
  unfold sort in *. simpl. rewrite sort_insert_Permutation. by f_equiv.
Qed.

Lemma StronglySorted_lookup (R : A → A → Prop) l (i j : nat) a b :
  StronglySorted R l → (i < j)%nat → l !! i = Some a → l !! j = Some b → R a b.
Proof.
  intros Hs. revert i j. induction Hs as [|x l Hs IH Hx]; intros i j Hij Hi Hj; [done |].
  destruct j as [|j]; [lia |]. simpl in Hj. destruct i as [|i]; simpl in Hi.
  - injection Hi as ->. rewrite Forall_forall in Hx.
    by eapply Hx, list_elem_of_lookup_2.
  - apply (IH i j); [lia | done | done].
Qed.

Lemma sort_cons (cmp : A → A → option Z) x l :
  sort cmp (x :: l) = sort_insert cmp x (sort cmp l).
Proof. reflexivity. Qed.

(** When the comparator is the difference of a key, the result is in
    descending order of the key. *)
Section Keyed.
Variable cmp : A → A → option Z.
Variable key : A → Z.

Lemma sort_insert_sorted x l :
  (∀ y, y ∈ l → cmp x y = Some (key y - key x)) →
  StronglySorted (λ a b, key b <= key a) l →
  StronglySorted (λ a b, key b <= key a) (sort_insert cmp x l).
Proof.
  intros Hk Hs. induction Hs as [|y l Hs IH Hy]; simpl.
  - repeat constructor.
  - unfold comes_after. rewrite (Hk y) by apply list_elem_of_here.
    destruct (Z.ltb_spec 0 (key y - key x)) as [Hlt | Hge].
    + constructor.
      * apply IH. intros b Hb. by apply Hk, list_elem_of_further.
      * rewrite sort_insert_Permutation. constructor; [lia | done].
    + constructor; [by constructor |].
      constructor; [lia |].
      eapply Forall_impl; [exact Hy |]. simpl. intros; lia.
Qed.

Lemma sort_sorted l :
  (∀ x y, x ∈ l → y ∈ l → cmp x y = Some (key y - key x)) →
  StronglySorted (λ a b, key b <= key a) (sort cmp l).
Proof.
  induction l as [|x l IH]; intros Hk; [constructor |].
  rewrite sort_cons. apply sort_insert_sorted.
  - intros y Hy. rewrite sort_Permutation in Hy.
    apply Hk; [apply list_elem_of_here | by apply list_elem_of_further].
  - apply IH. intros a b Ha Hb. by apply Hk; apply list_elem_of_further.
Qed.
End Keyed.

End ArrayFacts.

(** ** Searching *)

Section SearchFacts.
Context `{Engine}.

Lemma onlyDigits_string (s : string) :
  onlyDigits (VString s) = Ok (strip_non_digits s).
Proof.
  unfold onlyDigits, truthy.
  destruct (String.eqb_spec s "") as [->|]; done.
Qed.

(** On a record with a string [full_name] and a string [cpf] the
    search answers, and what it answers is the disjunction below. *)
Lemma matchesSearch_typed (p : Patient) (term : string) :
  typed_Patient p = true →
  ∃ name cpf,
    get p "full_name" = VString name ∧ get p "cpf" = VString cpf ∧
    matchesSearch p term =
      Ok (String.eqb term ""
          || includes (toLowerCase name) (toLowerCase term)
          || includes (strip_non_digits cpf) (strip_non_digits (toLowerCase term))).
Proof.
  unfold typed_Patient. intros [Hn Hc]%andb_prop.
  destruct (get p "full_name") as [| |name| |] eqn:En; try discriminate.
  destruct (get p "cpf") as [| |cpf| |] eqn:Ec; try discriminate.
  exists name, cpf. split_and!; [done | done |].
  unfold matchesSearch. destruct (String.eqb term ""); [done |].
  rewrite En, Ec, !onlyDigits_string. simpl.
  by destruct (includes (toLowerCase name) (toLowerCase term)).
Qed.

Lemma filtered_total (l : list Patient) (term : string) :
  Forall (λ p, typed_Patient p = true) l →
  JS.filter (λ p, matchesSearch p term) l =
    Ok (List.filter
          (λ p, match matchesSearch p term with Ok b => b | Throw _ => false end) l).
Proof.
  intros Ht. apply filter_Ok. eapply Forall_impl; [exact Ht |].
  intros p Hp. simpl.
  by destruct (matchesSearch_typed p term Hp) as (? & ? & _ & _ & ->).
Qed.

Lemma typed_sorted (l : list Patient) :
  Forall (λ p, typed_Patient p = true) l →
  Forall (λ p, typed_Patient p = true) (sort by_created_at_desc l).
Proof. intros Ht. by rewrite sort_Permutation. Qed.
End SearchFacts.

(** ** Pagination *)

Lemma ceil_div_spec (n p pg : Z) :
  0 <= n → 1 <= p → ((pg - 1) * p < n ↔ pg <= ceil_div n p).
Proof.
  intros Hn Hp. unfold ceil_div.
  pose proof (Z.div_mod (n + p - 1) p ltac:(lia)) as Hdm.
  pose proof (Z.mod_pos_bound (n + p - 1) p ltac:(lia)) as Hr.
  split; intros Hpg; nia.
Qed.

Lemma ceil_div_covers (n p : Z) :
  0 <= n → 1 <= p → 0 <= ceil_div n p ∧ n <= ceil_div n p * p.
Proof.
  intros Hn Hp. unfold ceil_div.
  pose proof (Z.div_mod (n + p - 1) p ltac:(lia)) as Hdm.
  pose proof (Z.mod_pos_bound (n + p - 1) p ltac:(lia)) as Hr.
  split; [apply Z.div_pos; lia | nia].
Qed.

(** C1. For a store of well-typed records, [listPatients] answers for
    every page [pg >= 1] and page size [size >= 1]; [count] is the size
    [N] of the whole filtered sequence whatever the page; [data] is the
    window of [size] elements that starts at [(pg-1)*size], cut at the
    end of the sequence, hence empty beyond it; the pages that are not
    empty are the pages [1..ceil(N/size)], and the concatenation of
    these pages is the filtered, sorted sequence. *)
Theorem listPatients_pagination `{Engine} (MOCK_DB : list Patient) (term : string) :
  Forall (λ p, typed_Patient p = true) MOCK_DB →
  ∃ filtered : list Patient,
    JS.filter (λ p, matchesSearch p term) (sort by_created_at_desc MOCK_DB) = Ok filtered ∧
    ∀ size : Z, 1 <= size →
      let N := Z.of_nat (length filtered) in
      let request pg :=
        listPatients {| page := Some pg; pageSize := Some size; search := Some term |}
          MOCK_DB in
      (∀ pg, 1 <= pg →
         request pg =
           Ok {| data := take (Z.to_nat size) (drop (Z.to_nat ((pg - 1) * size)) filtered);
                 count := N |}) ∧
      (∀ pg r, 1 <= pg → request pg = Ok r →
         count r = N ∧ (data r ≠ [] ↔ pg <= ceil_div N size)) ∧
      ∃ pages,
        Forall2 (λ pg window, request pg = Ok {| data := window; count := N |})
          (seqZ 1 (ceil_div N size)) pages ∧
        concat pages = filtered.
Proof.
  intros Ht. eexists. split; [apply filtered_total, typed_sorted, Ht |].
  set (filtered := List.filter _ _). intros size Hsize N request.
  assert (Hreq : ∀ pg, 1 <= pg →
    request pg =
      Ok {| data := take (Z.to_nat size) (drop (Z.to_nat ((pg - 1) * size)) filtered);
            count := N |}).
  { intros pg Hpg. unfold request, listPatients. simpl.
    rewrite filtered_total by apply typed_sorted, Ht. simpl.
    fold filtered. rewrite slice_window by nia. done. }
  split; [exact Hreq |]. split.
  - intros pg r Hpg Hr. rewrite Hreq in Hr by done. injection Hr as <-. simpl.
    split; [done |]. rewrite window_nonempty, <- ceil_div_spec by lia.
    split; [intros [_ Hlt] |intros Hlt; split]; nia.
  - exists (map (λ k, take (Z.to_nat size) (drop (k * Z.to_nat size) filtered))
              (seq 0 (Z.to_nat (ceil_div N size)))).
    destruct (ceil_div_covers N size) as [Hc0 Hc]; [lia | lia |].
    split.
    + unfold seqZ. apply Forall2_fmap, Forall_Forall2_diag, Forall_forall.
      intros k _. rewrite Hreq by lia.
      do 3 f_equal.
      replace (Z.of_nat k + 1 - 1) with (Z.of_nat k) by lia.
      rewrite Z2Nat.inj_mul, Nat2Z.id by lia. done.
    + rewrite windows_concat. apply take_ge.
      apply Nat2Z.inj_le. rewrite Nat2Z.inj_mul, !Z2Nat.id by lia. done.
Qed.

(** ** Search *)

Section Search.
Context `{Engine}.

Lemma elem_of_filtered (MOCK_DB : list Patient) (term : string) (p : Patient) name cpf :
  Forall (λ p, typed_Patient p = true) MOCK_DB →
  get p "full_name" = VString name → get p "cpf" = VString cpf →
  p ∈ List.filter
        (λ p, match matchesSearch p term with Ok b => b | Throw _ => false end)
        (sort by_created_at_desc MOCK_DB) ↔
  p ∈ MOCK_DB ∧
  (String.eqb term ""
   || includes (toLowerCase name) (toLowerCase term)
   || includes (strip_non_digits cpf) (strip_non_digits (toLowerCase term))) = true.
Proof.
  intros Ht Hn Hc.
  rewrite list_elem_of_In, filter_In, <- list_elem_of_In, sort_Permutation.
  rewrite Forall_forall in Ht.
  split; intros [Hp Hm]; (split; [done |]);
    destruct (matchesSearch_typed p term (Ht p Hp)) as (n' & c' & Hn' & Hc' & Heq);
    rewrite Heq in *; congruence.
Qed.
End Search.

(** C2. In a store of well-typed records, a record is in the filtered
    sequence of [listPatients] exactly when the term is empty, or the
    lower-cased term occurs in the lower-cased [full_name], or the
    digits of the term occur in the digits of [cpf].  So a record named
    [Maria Silva] with cpf [12345678901] is found by [maria] and by
    [12345678901] and not by [999]; alone in the store, it is the
    listing of the first two searches, and the third listing is empty. *)
Theorem listPatients_search `{Engine} (MOCK_DB : list Patient) :
  lowercase_keeps_digits → lowercase_ascii →
  Forall (λ p, typed_Patient p = true) MOCK_DB →
  (∀ term, ∃ filtered,
     JS.filter (λ p, matchesSearch p term) (sort by_created_at_desc MOCK_DB) = Ok filtered ∧
     ∀ p name cpf,
       p ∈ MOCK_DB → get p "full_name" = VString name → get p "cpf" = VString cpf →
       (p ∈ filtered ↔
          term = "" ∨
          (∃ a b, toLowerCase name = a +:+ toLowerCase term +:+ b) ∨
          (∃ a b, strip_non_digits cpf = a +:+ strip_non_digits term +:+ b))) ∧
  (∀ maria,
     get maria "full_name" = VString "Maria Silva" →
     get maria "cpf" = VString "12345678901" →
     let found term :=
       ∃ filtered,
         JS.filter (λ p, matchesSearch p term) (sort by_created_at_desc MOCK_DB) = Ok filtered ∧
         maria ∈ filtered in
     let listing term :=
       listPatients {| page := None; pageSize := None; search := Some term |} [maria] in
     (maria ∈ MOCK_DB → found "maria" ∧ found "12345678901" ∧ ¬ found "999") ∧
     listing "maria" = Ok {| data := [maria]; count := 1 |} ∧
     listing "12345678901" = Ok {| data := [maria]; count := 1 |} ∧
     listing "999" = Ok {| data := []; count := 0 |}).
Proof.
  intros Hdigits Hascii Ht. split.
  - intros term. eexists. split; [apply filtered_total, typed_sorted, Ht |].
    intros p name cpf Hp Hn Hc.
    rewrite (elem_of_filtered _ _ _ name cpf) by done.
    rewrite !orb_true_iff, !includes_spec, Hdigits.
    destruct (String.eqb_spec term ""); intuition congruence.
  - intros maria Hn Hc found listing.
    assert (Hm : ∀ term, ascii_only term = true →
      matchesSearch maria term =
        Ok (String.eqb term ""
            || includes "maria silva" (ascii_toLowerCase term)
            || includes "12345678901" (strip_non_digits (ascii_toLowerCase term)))).
    { intros term Hterm.
      assert (Htm : typed_Patient maria = true) by (unfold typed_Patient; by rewrite Hn, Hc).
      destruct (matchesSearch_typed maria term Htm) as (n' & c' & Hn' & Hc' & ->).
      rewrite Hn in Hn'. rewrite Hc in Hc'. injection Hn' as <-. injection Hc' as <-.
      by rewrite !Hascii. }
    split.
    + intros Hin.
      assert (Hf : ∀ term b, ascii_only term = true →
        matchesSearch maria term = Ok b → found term ↔ b = true).
      { intros term b Hterm Hb. unfold found. split.
        - intros (filtered & Hfil & Hmem).
          rewrite filtered_total in Hfil by apply typed_sorted, Ht.
          injection Hfil as <-.
          apply list_elem_of_In, filter_In in Hmem as [_ Hmem]. by rewrite Hb in Hmem.
        - intros ->. eexists. split; [apply filtered_total, typed_sorted, Ht |].
          apply list_elem_of_In, filter_In. rewrite Hb.
          split; [| done]. apply list_elem_of_In. by rewrite sort_Permutation. }
      rewrite (Hf "maria" true), (Hf "12345678901" true), (Hf "999" false);
        try done; by rewrite Hm.
    + unfold listing, listPatients. simpl. rewrite !Hm by done. done.
Qed.

(** ** The mutators *)

Section FindIndex.
Context {A : Type}.
Implicit Types (f : A → bool) (l : list A).

Lemma findIndex_from_none f l (i : Z) :
  Forall (λ x, f x = false) l → findIndex_from f l i = -1.
Proof.
  intros Hl. revert i. induction Hl as [|x l Hx _ IH]; intros i; simpl; [done |].
  by rewrite Hx.
Qed.

Lemma findIndex_from_first f l (i : Z) (n : nat) x :
  l !! n = Some x → f x = true →
  (∀ j y, (j < n)%nat → l !! j = Some y → f y = false) →
  findIndex_from f l i = i + Z.of_nat n.
Proof.
  revert i n. induction l as [|y l IH]; intros i n Hn Hx Hfirst; [done |].
  destruct n as [|n]; simpl in *.
  - injection Hn as ->. rewrite Hx. lia.
  - rewrite (Hfirst 0%nat y) by (done || lia).
    rewrite (IH (i + 1) n); [lia | done | done |].
    intros j z Hj Hz. apply (Hfirst (S j)); [lia | done].
Qed.

(** [findIndex] answers [-1] when no element qualifies, and the
    position of the first one that does otherwise. *)
Lemma findIndex_cases f l :
  (findIndex f l = -1 ∧ Forall (λ x, f x = false) l) ∨
  (∃ (n : nat) x,
      findIndex f l = Z.of_nat n ∧ l !! n = Some x ∧ f x = true ∧
      ∀ j y, (j < n)%nat → l !! j = Some y → f y = false).
Proof.
  induction l as [|y l IH].
  - left. by split.
  - destruct (f y) eqn:Hy.
    + right. exists 0%nat, y. unfold findIndex. simpl. rewrite Hy.
      split_and!; [done | done | done |]. intros; lia.
    + destruct IH as [[Hnone Hall] | (n & x & Hn & Hx & Hfx & Hfirst)].
      * left. split; [| by constructor].
        apply findIndex_from_none. by constructor.
      * right. exists (S n), x. split_and!; [| done | done |].
        -- unfold findIndex. rewrite (findIndex_from_first f (y :: l) 0 (S n) x); [done..|].
           intros [|j] z Hj Hz; simpl in Hz; [congruence |].
           apply (Hfirst j); [lia | done].
        -- intros [|j] z Hj Hz; simpl in Hz; [congruence |].
           apply (Hfirst j); [lia | done].
Qed.
End FindIndex.

Section Mutators.
Context `{Engine}.
Implicit Types (MOCK_DB : list Patient) (payload : obj).

Lemma strict_eq_true (a b : value) : strict_eq a b = true ↔ a = b.
Proof. unfold strict_eq. by rewrite bool_decide_eq_true. Qed.

Lemma strict_eq_false (a b : value) : strict_eq a b = false ↔ a ≠ b.
Proof. unfold strict_eq. by rewrite bool_decide_eq_false. Qed.

(** What [updatePatient] does when the first record with the id of
    the payload is at position [n]. *)
Lemma updatePatient_found (now : Z) payload MOCK_DB (n : nat) existing :
  MOCK_DB !! n = Some existing →
  get existing "id" = get payload "id" →
  (∀ j p, (j < n)%nat → MOCK_DB !! j = Some p → get p "id" ≠ get payload "id") →
  updatePatient now payload MOCK_DB =
    let updated := <["updated_at" := VString (toISOString now)]> (payload ∪ existing) in
    (Ok updated, <[n := updated]> MOCK_DB).
Proof.
  intros Hn Hid Hfirst. unfold updatePatient, findIndex.
  rewrite (findIndex_from_first _ MOCK_DB 0 n existing);
    [| done | by apply strict_eq_true |
     intros j p Hj Hp; apply strict_eq_false; eauto].
  destruct (Z.ltb_spec (0 + Z.of_nat n) 0); [lia |].
  replace (Z.to_nat (0 + Z.of_nat n)) with n by lia.
  by rewrite Hn.
Qed.

Lemma updatePatient_missing (now : Z) payload MOCK_DB :
  (∀ p, p ∈ MOCK_DB → get p "id" ≠ get payload "id") →
  updatePatient now payload MOCK_DB =
    (Throw (Error "Paciente não encontrado"), MOCK_DB).
Proof.
  intros Hnone. unfold updatePatient, findIndex.
  rewrite findIndex_from_none; [done |].
  apply Forall_forall. intros p Hp. apply strict_eq_false. eauto.
Qed.

(** Every call of [updatePatient] is one of the two. *)
Lemma updatePatient_cases (now : Z) payload MOCK_DB :
  updatePatient now payload MOCK_DB =
    (Throw (Error "Paciente não encontrado"), MOCK_DB) ∨
  ∃ (n : nat) existing,
    MOCK_DB !! n = Some existing ∧ get existing "id" = get payload "id" ∧
    updatePatient now payload MOCK_DB =
      let updated := <["updated_at" := VString (toISOString now)]> (payload ∪ existing) in
      (Ok updated, <[n := updated]> MOCK_DB).
Proof.
  destruct (findIndex_cases (λ p, strict_eq (get p "id") (get payload "id")) MOCK_DB)
    as [[_ Hall] | (n & x & _ & Hn & Hx & Hfirst)].
  - left. apply updatePatient_missing. rewrite Forall_forall in Hall.
    intros p Hp. by apply strict_eq_false, Hall.
  - right. exists n, x. apply strict_eq_true in Hx. split_and!; [done | done |].
    apply updatePatient_found; [done | done |].
    intros j p Hj Hp. by apply strict_eq_false, (Hfirst j).
Qed.

(** The merge, property by property. *)
Lemma merged_lookup (now : string) payload (existing : Patient) (k : string) :
  (<["updated_at" := VString now]> (payload ∪ existing)) !! k =
    if decide (k = "updated_at") then Some (VString now)
    else match payload !! k with
         | Some v => Some v
         | None => existing !! k
         end.
Proof.
  case_decide as Hk.
  - subst. apply lookup_insert_eq.
  - rewrite lookup_insert_ne by done.
    destruct (payload !! k) eqn:Hp.
    + by apply lookup_union_Some_l.
    + by apply lookup_union_r.
Qed.

Lemma merged_id (now : string) payload (existing : Patient) :
  get existing "id" = get payload "id" →
  get (<["updated_at" := VString now]> (payload ∪ existing)) "id" = get existing "id".
Proof.
  intros Hid. unfold get in *. rewrite merged_lookup.
  case_decide; [done |]. by destruct (payload !! "id").
Qed.
End Mutators.

(** C4. When no stored record has the id of the payload,
    [updatePatient] rejects with the not-found error ("Paciente não
    encontrado") and [MOCK_DB] is what it was: nothing added, removed
    or changed. *)
Theorem updatePatient_not_found `{Engine} (now : Z) (payload : obj) (MOCK_DB : list Patient) :
  (∀ p, p ∈ MOCK_DB → get p "id" ≠ get payload "id") →
  updatePatient now payload MOCK_DB = (Throw (Error "Paciente não encontrado"), MOCK_DB) ∧
  exec MOCK_DB (Update now payload) = MOCK_DB.
Proof.
  intros Hnone. unfold exec. by rewrite updatePatient_missing.
Qed.

Lemma updatePatient_not_found_witness :
  (∀ p, p ∈ Sample.store → get p "id" ≠ get Sample.rename_nobody "id") ∧
  updatePatient Sample.T3 Sample.rename_nobody Sample.store
    = (Throw (Error "Paciente não encontrado"), Sample.store) ∧
  exec Sample.store (Update Sample.T3 Sample.rename_nobody) = Sample.store.
Proof.
  assert (Habsent : ∀ p, p ∈ Sample.store → get p "id" ≠ get Sample.rename_nobody "id").
  { intros p Hp. apply strict_eq_false. each_stored Hp; by_evaluation. }
  split; [exact Habsent |].
  exact (updatePatient_not_found Sample.T3 Sample.rename_nobody Sample.store Habsent).
Defined.

(** C3, as the code has it. When the first record with the id of the
    payload is [existing], [updatePatient] puts in its place, and
    answers, the record [updated] that has every property of the
    payload, every property of [existing] the payload does not have,
    and [updated_at] set to the reading of the clock; every other
    record stays where it is.  [id] keeps its value; [created_at] keeps
    its value when the payload has no [created_at], as in a
    [PatientUpdate].  The new [updated_at] is the instant of the call,
    so it is later than the old one exactly when the clock has moved
    past it. *)
Theorem updatePatient_merges `{Engine} (now : Z) (payload : obj) (MOCK_DB : list Patient)
    (n : nat) (existing : Patient) :
  MOCK_DB !! n = Some existing →
  get existing "id" = get payload "id" →
  (∀ j p, (j < n)%nat → MOCK_DB !! j = Some p → get p "id" ≠ get payload "id") →
  ∃ updated : Patient,
    updatePatient now payload MOCK_DB = (Ok updated, <[n := updated]> MOCK_DB) ∧
    <[n := updated]> MOCK_DB !! n = Some updated ∧
    (∀ j, j ≠ n → <[n := updated]> MOCK_DB !! j = MOCK_DB !! j) ∧
    length (<[n := updated]> MOCK_DB) = length MOCK_DB ∧
    (∀ k v, k ≠ "updated_at" → payload !! k = Some v → updated !! k = Some v) ∧
    (∀ k, k ≠ "updated_at" → payload !! k = None → updated !! k = existing !! k) ∧
    get updated "id" = get existing "id" ∧
    (payload !! "created_at" = None →
       get updated "created_at" = get existing "created_at") ∧
    get updated "updated_at" = VString (toISOString now) ∧
    (clock_ok now →
       instant (get updated "updated_at") = Some now ∧
       ∀ u, instant (get existing "updated_at") = Some u →
            (u < now ↔ ∃ u', instant (get updated "updated_at") = Some u' ∧ u < u')).
Proof.
  intros Hn Hid Hfirst. eexists. split; [by apply updatePatient_found |].
  split_and!.
  - apply list_lookup_insert_eq. by eapply lookup_lt_Some.
  - intros j Hj. by apply list_lookup_insert_ne.
  - apply length_insert.
  - intros k v Hk Hp. rewrite merged_lookup, Hp. by case_decide.
  - intros k Hk Hp. rewrite merged_lookup, Hp. by case_decide.
  - by apply merged_id.
  - intros Hp. unfold get. rewrite merged_lookup, Hp. by case_decide.
  - unfold get. by rewrite merged_lookup.
  - intros [_ Hclock].
    assert (Hu : instant
      (get (<["updated_at" := VString (toISOString now)]> (payload ∪ existing)) "updated_at")
      = Some now) by (unfold get; by rewrite merged_lookup).
    split; [done |]. intros u _. rewrite Hu. split; [eauto |].
    by intros (u' & [= <-] & Hlt).
Qed.

Lemma updatePatient_merges_witness :
  Sample.store !! 1%nat = Some Sample.ana_stored ∧
  get Sample.ana_stored "id" = get Sample.move_ana "id" ∧
  (∀ j p, (j < 1)%nat → Sample.store !! j = Some p →
          get p "id" ≠ get Sample.move_ana "id") ∧
  ∃ updated : Patient,
    updatePatient (Sample.T3 + 1000) Sample.move_ana Sample.store
      = (Ok updated, <[1%nat := updated]> Sample.store) ∧
    get updated "address_city" = VString "São Paulo" ∧
    get updated "full_name" = VString "Ana Lima" ∧
    get updated "created_at" = VString "2023-11-14T22:14:20.000Z" ∧
    get updated "updated_at" = VString "2023-11-14T22:15:21.000Z".
Proof.
  assert (Hat : Sample.store !! 1%nat = Some Sample.ana_stored) by reflexivity.
  assert (Hid : get Sample.ana_stored "id" = get Sample.move_ana "id") by by_evaluation.
  assert (Hfirst : ∀ j p, (j < 1)%nat → Sample.store !! j = Some p →
                          get p "id" ≠ get Sample.move_ana "id").
  { intros [|j] p Hj Hp; [| lia]. injection Hp as <-. apply strict_eq_false. by_evaluation. }
  split_and!; [exact Hat | exact Hid | exact Hfirst |].
  destruct (updatePatient_merges (Sample.T3 + 1000) Sample.move_ana Sample.store 1
              Sample.ana_stored Hat Hid Hfirst)
    as (updated & Hrun & _ & _ & _ & Hin & Hout & _ & Hcreated & Hupdated & _).
  exists updated. split_and!.
  - exact Hrun.
  - unfold get. rewrite (Hin "address_city" (VString "São Paulo")); by_evaluation.
  - unfold get. rewrite (Hout "full_name"); by_evaluation.
  - rewrite Hcreated; by_evaluation.
  - rewrite Hupdated; by_evaluation.
Defined.

(** An update in the millisecond of the creation leaves [updated_at]
    where it was, and a payload that carries a [created_at] overwrites
    the stored one. *)
Lemma updatePatient_same_millisecond :
  ∃ existing rest updated backdated,
    Sample.store = existing :: rest ∧
    updatePatient Sample.T1 Sample.rename_maria Sample.store
      = (Ok updated, updated :: rest) ∧
    instant (get existing "updated_at") = Some Sample.T1 ∧
    instant (get updated "updated_at") = Some Sample.T1 ∧
    ¬ (Sample.T1 < Sample.T1) ∧
    updatePatient Sample.T2 Sample.backdate_maria Sample.store
      = (Ok backdated, backdated :: rest) ∧
    get existing "created_at" = VString "2023-11-14T22:13:20.000Z" ∧
    get backdated "created_at" = VString "2001-01-01T00:00:00.000Z".
Proof.
  set (existing := <["updated_at" := VString (toISOString Sample.T1)]>
                     (<["created_at" := VString (toISOString Sample.T1)]>
                        (<["id" := VString Sample.id1]> Sample.maria)) : Patient).
  set (rest := tail Sample.store).
  assert (Hstore : Sample.store = existing :: rest) by reflexivity.
  assert (Hid : ∀ payload, get payload "id" = VString Sample.id1 →
    get existing "id" = get payload "id") by (intros ? ->; by_evaluation).
  assert (Hfirst : ∀ (v : value) j (p : Patient),
    (j < 0)%nat → Sample.store !! j = Some p → get p "id" ≠ v) by (intros; lia).
  assert (Hrun : ∀ now payload, get payload "id" = VString Sample.id1 →
    updatePatient now payload Sample.store =
      (Ok (<["updated_at" := VString (toISOString now)]> (payload ∪ existing)),
       <["updated_at" := VString (toISOString now)]> (payload ∪ existing) :: rest)).
  { intros now payload Hpayload.
    apply (updatePatient_found now payload Sample.store 0 existing);
      [reflexivity | by apply Hid | apply Hfirst]. }
  exists existing, rest. do 2 eexists. split; [exact Hstore |].
  split; [apply Hrun; by_evaluation |].
  split; [by_evaluation |]. split; [by_evaluation |]. split; [lia |].
  split; [apply Hrun; by_evaluation |].
  split; by_evaluation.
Qed.

Section Delete.
Implicit Types (MOCK_DB : list Patient).

Lemma filter_sublist {A} (f : A → bool) (l : list A) : List.filter f l `sublist_of` l.
Proof.
  induction l as [|x l IH]; simpl; [constructor |].
  destruct (f x); by constructor.
Qed.

Lemma filter_all {A} (f : A → bool) (l : list A) :
  Forall (λ x, f x = true) l → List.filter f l = l.
Proof.
  induction 1 as [|x l Hx _ IH]; simpl; [done |]. by rewrite Hx, IH.
Qed.

Lemma filter_twice {A} (f : A → bool) (l : list A) :
  List.filter f (List.filter f l) = List.filter f l.
Proof.
  apply filter_all, Forall_forall. intros x Hx.
  by apply list_elem_of_In, filter_In in Hx as [_ Hx].
Qed.
End Delete.

(** C6. [deletePatient] never rejects.  One call removes every record
    with the given id and keeps the others, in their order; when no
    record has the id the store is left as it is; and a second call
    with the same id changes nothing more. *)
Theorem deletePatient_idempotent (id : string) (MOCK_DB : list Patient) :
  ∃ after : list Patient,
    deletePatient id MOCK_DB = (Ok tt, after) ∧
    (∀ p, p ∈ after ↔ p ∈ MOCK_DB ∧ get p "id" ≠ VString id) ∧
    after `sublist_of` MOCK_DB ∧
    ((∀ p, p ∈ MOCK_DB → get p "id" ≠ VString id) → after = MOCK_DB) ∧
    deletePatient id after = (Ok tt, after).
Proof.
  eexists. split; [reflexivity |]. split_and!.
  - intros p. rewrite list_elem_of_In, filter_In, <- list_elem_of_In.
    by rewrite negb_true_iff, strict_eq_false.
  - apply filter_sublist.
  - intros Habsent. apply filter_all, Forall_forall. intros p Hp.
    by apply negb_true_iff, strict_eq_false, Habsent.
  - unfold deletePatient. by rewrite filter_twice.
Qed.

(** ** Histories *)

Section Histories.
Context `{Engine}.
Implicit Types (history : list call) (c : call) (p : Patient).

Lemma run_snoc history c : run (history ++ [c]) = exec (run history) c.
Proof. unfold run. by rewrite foldl_snoc. Qed.

Lemma issued_ids_snoc history c :
  issued_ids (history ++ [c]) = issued_ids history ++ issued_by c.
Proof. unfold issued_ids. rewrite map_app, concat_app. simpl. by rewrite app_nil_r. Qed.


Lemma elem_of_list_insert_inv {A} (l : list A) (n : nat) (x y : A) :
  y ∈ <[n := x]> l → y = x ∨ y ∈ l.
Proof.
  intros (j & Hj)%list_elem_of_lookup.
  apply list_lookup_insert_Some in Hj as [(-> & -> & _) | (_ & Hj)]; [by left |].
  right. by eapply list_elem_of_lookup_2.
Qed.

(** A property of every record that creation establishes, and that
    updates preserve, holds throughout any history. *)
Lemma run_invariant (I : list call → Patient → Prop) :
  (∀ history c p, I history p → I (history ++ [c]) p) →
  (∀ history now uuid payload,
     I (history ++ [Create now uuid payload])
       (<["updated_at" := VString (toISOString now)]>
          (<["created_at" := VString (toISOString now)]>
             (<["id" := VString uuid]> payload)))) →
  (∀ history now payload existing,
     existing ∈ run history → I history existing →
     get existing "id" = get payload "id" →
     I (history ++ [Update now payload])
       (<["updated_at" := VString (toISOString now)]> (payload ∪ existing))) →
  ∀ history p, p ∈ run history → I history p.
Proof.
  intros Hmono Hcreate Hupdate history.
  induction history as [|c history IH] using rev_ind; intros p Hp.
  - by apply elem_of_nil in Hp.
  - rewrite run_snoc in Hp.
    destruct c as [now uuid payload | now payload | id]; unfold exec in Hp.
    + simpl in Hp. apply elem_of_app in Hp as [Hp | Hp]; [by apply Hmono, IH |].
      apply list_elem_of_singleton in Hp as ->. apply Hcreate.
    + destruct (updatePatient_cases now payload (run history))
        as [Hu | (n & existing & Hn & Hid & Hu)]; rewrite Hu in Hp; simpl in Hp.
      * by apply Hmono, IH.
      * apply elem_of_list_insert_inv in Hp as [-> | Hp]; [| by apply Hmono, IH].
        apply list_elem_of_lookup_2 in Hn. by apply Hupdate; [| apply IH |].
    + simpl in Hp. apply list_elem_of_In, filter_In in Hp as [Hp _].
      by apply Hmono, IH, list_elem_of_In.
Qed.

(** Every stored id is one the generator handed out. *)
Lemma stored_ids_issued history p :
  p ∈ run history → ∃ u, get p "id" = VString u ∧ u ∈ issued_ids history.
Proof.
  revert history p.
  apply (run_invariant (λ history p, ∃ u, get p "id" = VString u ∧ u ∈ issued_ids history)).
  - intros history c p (u & Hu & Hin). exists u. split; [done |].
    rewrite issued_ids_snoc, elem_of_app. by left.
  - intros history now uuid payload. exists uuid. split.
    + unfold get. rewrite lookup_insert_ne, lookup_insert_ne, lookup_insert_eq; done.
    + rewrite issued_ids_snoc, elem_of_app. right. simpl. apply list_elem_of_here.
  - intros history now payload existing _ (u & Hu & Hin) Hid. exists u. split.
    + by rewrite merged_id.
    + rewrite issued_ids_snoc, elem_of_app. by left.
Qed.
End Histories.




(** C8. If every payload given to [createPatient] carries a [cpf] of
    11 digits and a [phone_primary] of at least 10 digits, and every
    payload given to [updatePatient] does so for whichever of the two
    it carries, then the [cpf] and the [phone_primary] of every stored
    record are strings of decimal digits only.  The service itself
    stores these two properties as the payload has them. *)
Theorem stored_digits_only `{Engine} (history : list call) :
  Forall validated history →
  (∀ p, p ∈ run history →
     digits_only (get p "cpf") ∧ digits_only (get p "phone_primary")) ∧
  (∀ now uuid payload MOCK_DB entity after,
     createPatient now uuid payload MOCK_DB = (Ok entity, after) →
     get entity "cpf" = get payload "cpf" ∧
     get entity "phone_primary" = get payload "phone_primary").
Proof.
  intros Hvalid. split.
  - assert (Hinv : ∀ p, p ∈ run history →
      valid_cpf (get p "cpf") ∧ valid_phone (get p "phone_primary")).
    { intros p Hp. revert history p Hp Hvalid.
      apply (run_invariant (λ history p, Forall validated history →
        valid_cpf (get p "cpf") ∧ valid_phone (get p "phone_primary"))).
      - intros history c p IH [Hh _]%Forall_app. by apply IH.
      - intros history now uuid payload [_ Hc]%Forall_app.
        apply Forall_singleton in Hc as [(v & Hv & Hcpf) (w & Hw & Hphone)].
        unfold get. rewrite !lookup_insert_ne by done. by rewrite Hv, Hw.
      - intros history now payload existing _ IH _ [Hh Hc]%Forall_app.
        apply Forall_singleton in Hc as [Hcpf Hphone].
        destruct (IH Hh) as [IHcpf IHphone].
        unfold get in *. rewrite !merged_lookup.
        repeat case_decide; try done. split.
        + destruct (payload !! "cpf") as [v|] eqn:Hv; [by apply Hcpf | done].
        + destruct (payload !! "phone_primary") as [v|] eqn:Hv; [by apply Hphone | done]. }
    intros p Hp. destruct (Hinv p Hp) as [(s & -> & Hs & _) (t & -> & Ht & _)].
    split; eexists; eauto.
  - intros now uuid payload MOCK_DB entity after [= <- _].
    unfold get. by rewrite !lookup_insert_ne.
Qed.

Lemma stored_digits_only_witness :
  Forall validated Sample.later ∧
  ∀ p, p ∈ run Sample.later →
    digits_only (get p "cpf") ∧ digits_only (get p "phone_primary").
Proof.
  assert (Hinsert : ∀ payload : obj,
    (∃ s, payload !! "cpf" = Some (VString s) ∧
          all_digits s = true ∧ String.length s = 11%nat) →
    (∃ s, payload !! "phone_primary" = Some (VString s) ∧
          all_digits s = true ∧ (10 <= String.length s)%nat) →
    validated_insert payload).
  { intros payload (s & Hs & ? & ?) (t & Ht & ? & ?).
    split; eexists; (split; [eassumption |]); eexists; eauto. }
  assert (Hvalid : Forall validated Sample.later).
  { repeat (apply Forall_cons; split); [.. | by constructor]; simpl.
    - apply Hinsert; eexists; (split; [reflexivity | split; by_evaluation]).
    - apply Hinsert; eexists; (split; [reflexivity | split; by_evaluation]).
    - apply Hinsert; eexists; (split; [reflexivity | split; by_evaluation]).
    - split; intros v Hv; discriminate Hv.
    - split; intros v Hv; [| discriminate Hv].
      injection Hv as <-. eexists. split; [reflexivity | split; by_evaluation].
    - exact I. }
  split; [exact Hvalid |].
  exact (proj1 (stored_digits_only Sample.later Hvalid)).
Defined.




(** ** Ordering *)

Section Ordering.
Context `{Engine}.
Implicit Types (p : Patient) (MOCK_DB : list Patient).

Lemma created_time_lacking p :
  truthy (get p "created_at") = false → created_time p = Some 0.
Proof. unfold created_time. by intros ->. Qed.

Lemma created_time_stamped p (t : Z) :
  get p "created_at" = VString (toISOString t) → clock_ok t →
  truthy (get p "created_at") = true ∧ created_time p = Some t.
Proof.
  intros Hp [Hne Hparse]. unfold created_time. rewrite Hp. simpl.
  by destruct (String.eqb_spec (toISOString t) "").
Qed.

Lemma created_time_created (now : Z) (uuid : string) (payload : obj) :
  clock_ok now →
  created_time (<["updated_at" := VString (toISOString now)]>
                  (<["created_at" := VString (toISOString now)]>
                     (<["id" := VString uuid]> payload))) = Some now.
Proof.
  intros Hnow. eapply created_time_stamped; [| done].
  unfold get. by rewrite lookup_insert_ne, lookup_insert_eq.
Qed.

(** With an empty term nothing is filtered out. *)
Lemma unfiltered (l : list Patient) : JS.filter (λ p, matchesSearch p "") l = Ok l.
Proof.
  rewrite (filter_Ok _ (λ _, true)); [| by apply Forall_forall].
  f_equal. apply filter_all. by apply Forall_forall.
Qed.
End Ordering.

(** C7. [listPatients] sorts the store by [created_at], newest first,
    then filters, then cuts the page.  A record without a [created_at]
    counts as created at instant zero, so it comes after every record
    the clock has stamped (the readings of the clock are instants
    after the epoch), and the listing still answers.  Three records
    created at [T1 < T2 < T3] are listed newest first. *)
Theorem listPatients_order `{Engine} (MOCK_DB : list Patient) :
  (∀ p, p ∈ MOCK_DB →
     truthy (get p "created_at") = false ∨
     ∃ t, get p "created_at" = VString (toISOString t) ∧ clock_ok t ∧ 0 < t) →
  let sorted := sort by_created_at_desc MOCK_DB in
  sorted ≡ₚ MOCK_DB ∧
  (∀ (i j : nat) a b, (i < j)%nat → sorted !! i = Some a → sorted !! j = Some b →
     ∃ ta tb, created_time a = Some ta ∧ created_time b = Some tb ∧ tb <= ta) ∧
  (∀ p, truthy (get p "created_at") = false → created_time p = Some 0) ∧
  (∀ (i j : nat) a b, sorted !! i = Some a → sorted !! j = Some b →
     truthy (get a "created_at") = false → truthy (get b "created_at") = true →
     (j < i)%nat) ∧
  (∀ params,
     listPatients params MOCK_DB =
       filtered ← JS.filter (λ p, matchesSearch p (default "" (search params))) sorted;
       Ok {| data := slice filtered
                       ((default 1 (page params) - 1) * default 10 (pageSize params))
                       ((default 1 (page params) - 1) * default 10 (pageSize params)
                        + default 10 (pageSize params));
             count := Z.of_nat (length filtered) |}) ∧
  (∀ pg size, 1 <= pg → 1 <= size →
     listPatients {| page := Some pg; pageSize := Some size; search := Some "" |} MOCK_DB =
       Ok {| data := take (Z.to_nat size) (drop (Z.to_nat ((pg - 1) * size)) sorted);
             count := Z.of_nat (length MOCK_DB) |}) ∧
  (∀ T1 T2 T3 id1 id2 id3 payload1 payload2 payload3,
     clock_ok T1 → clock_ok T2 → clock_ok T3 → T1 < T2 → T2 < T3 →
     ∃ r1 r2 r3,
       run [Create T1 id1 payload1; Create T2 id2 payload2; Create T3 id3 payload3]
         = [r1; r2; r3] ∧
       listPatients {| page := None; pageSize := None; search := None |} [r1; r2; r3]
         = Ok {| data := [r3; r2; r1]; count := 3 |}).
Proof.
  intros Hstore sorted.
  assert (Hkey : ∀ p, p ∈ MOCK_DB → ∃ t, created_time p = Some t ∧ 0 <= t ∧
                 (truthy (get p "created_at") = true → 0 < t)).
  { intros p [Hp | (t & Hp & Hclock & Ht)]%Hstore.
    - exists 0. rewrite created_time_lacking, Hp by done. split_and!; [done | lia | done].
    - destruct (created_time_stamped p t Hp Hclock) as [_ ->]. exists t.
      split_and!; [done | lia | done]. }
  assert (Hsorted : StronglySorted
            (λ a b, default 0 (created_time b) <= default 0 (created_time a)) sorted).
  { apply sort_sorted. intros a b Ha Hb. unfold by_created_at_desc.
    destruct (Hkey a Ha) as (ta & -> & _), (Hkey b Hb) as (tb & -> & _). done. }
  assert (Hperm : sorted ≡ₚ MOCK_DB) by apply sort_Permutation.
  assert (Hin : ∀ (i : nat) a, sorted !! i = Some a → a ∈ MOCK_DB).
  { intros i a Ha. rewrite <- Hperm. by eapply list_elem_of_lookup_2. }
  split_and!.
  - exact Hperm.
  - intros i j a b Hij Ha Hb.
    pose proof (StronglySorted_lookup _ _ i j a b Hsorted Hij Ha Hb) as Hle.
    destruct (Hkey a (Hin i a Ha)) as (ta & Hta & _), (Hkey b (Hin j b Hb)) as (tb & Htb & _).
    simpl in Hle. rewrite Hta, Htb in Hle. by exists ta, tb.
  - apply created_time_lacking.
  - intros i j a b Ha Hb Hlack Hstamped.
    destruct (Hkey b (Hin j b Hb)) as (tb & Htb & _ & Hpos).
    specialize (Hpos Hstamped).
    destruct (Nat.lt_trichotomy i j) as [Hij | [-> | Hji]]; [| congruence | done].
    pose proof (StronglySorted_lookup _ _ i j a b Hsorted Hij Ha Hb) as Hle.
    simpl in Hle. rewrite Htb, (created_time_lacking a Hlack) in Hle. simpl in Hle. lia.
  - done.
  - intros pg size Hpg Hsize. unfold listPatients. simpl. rewrite unfiltered. simpl.
    fold sorted. rewrite slice_window by nia.
    by rewrite (Permutation_length Hperm).
  - intros T1 T2 T3 id1 id2 id3 payload1 payload2 payload3 H1 H2 H3 H12 H23.
    do 3 eexists. split; [reflexivity |].
    unfold listPatients. simpl. unfold comes_after, by_created_at_desc.
    rewrite !created_time_created by done. simpl.
    destruct (Z.ltb_spec 0 (T3 - T2)); [| lia]. simpl.
    unfold comes_after, by_created_at_desc. rewrite !created_time_created by done. simpl.
    destruct (Z.ltb_spec 0 (T3 - T1)); [| lia].
    destruct (Z.ltb_spec 0 (T2 - T1)); [| lia]. done.
Qed.

Lemma listPatients_order_witness :
  (∀ p, p ∈ Sample.archive →
     truthy (get p "created_at") = false ∨
     ∃ t, get p "created_at" = VString (toISOString t) ∧ clock_ok t ∧ 0 < t) ∧
  ∀ (i j : nat) a b,
    sort by_created_at_desc Sample.archive !! i = Some a →
    sort by_created_at_desc Sample.archive !! j = Some b →
    truthy (get a "created_at") = false → truthy (get b "created_at") = true →
    (j < i)%nat.
Proof.
  assert (Hstore : ∀ p, p ∈ Sample.archive →
     truthy (get p "created_at") = false ∨
     ∃ t, get p "created_at" = VString (toISOString t) ∧ clock_ok t ∧ 0 < t).
  { intros p Hp. each_stored Hp.
    - left. by_evaluation.
    - right. exists Sample.T1. split_and!; by_evaluation.
    - right. exists Sample.T2. split_and!; by_evaluation.
    - right. exists Sample.T3. split_and!; by_evaluation. }
  split; [exact Hstore |].
  apply (listPatients_order Sample.archive Hstore).
Defined.

(** ** Terms without a digit *)

(** C10. A term that is not empty and has no digit normalizes to the
    empty string, which occurs in every [cpf]: [matchesSearch] accepts
    every well-typed record, whatever its [full_name], and
    [listPatients] pages through the whole store. *)
Theorem digitless_term_matches_all `{Engine} (term : string) :
  lowercase_keeps_digits → term ≠ "" → no_digit term = true →
  onlyDigits (VString (toLowerCase term)) = Ok "" ∧
  (∀ cpf, includes cpf "" = true) ∧
  (∀ p, typed_Patient p = true → matchesSearch p term = Ok true) ∧
  (∀ MOCK_DB, Forall (λ p, typed_Patient p = true) MOCK_DB →
     let sorted := sort by_created_at_desc MOCK_DB in
     JS.filter (λ p, matchesSearch p term) sorted = Ok sorted ∧
     ∀ pg size, 1 <= pg → 1 <= size →
       listPatients {| page := Some pg; pageSize := Some size; search := Some term |} MOCK_DB =
         Ok {| data := take (Z.to_nat size) (drop (Z.to_nat ((pg - 1) * size)) sorted);
               count := Z.of_nat (length MOCK_DB) |}).
Proof.
  intros Hdigits Hne Hno.
  assert (Hstrip : strip_non_digits (toLowerCase term) = "")
    by (rewrite Hdigits; by apply strip_no_digit).
  assert (Hall : ∀ p, typed_Patient p = true → matchesSearch p term = Ok true).
  { intros p Hp. destruct (matchesSearch_typed p term Hp) as (name & cpf & _ & _ & ->).
    by rewrite Hstrip, includes_empty, orb_true_r. }
  assert (Hfilter : ∀ l, Forall (λ p, typed_Patient p = true) l →
            JS.filter (λ p, matchesSearch p term) l = Ok l).
  { intros l Hl. rewrite (filter_Ok _ (λ _, true)).
    - f_equal. apply filter_all. by apply Forall_forall.
    - eapply Forall_impl; [exact Hl |]. intros p Hp. by apply Hall. }
  split_and!.
  - by rewrite onlyDigits_string, Hstrip.
  - apply includes_empty.
  - exact Hall.
  - intros MOCK_DB Ht sorted. split; [by apply Hfilter, typed_sorted |].
    intros pg size Hpg Hsize. unfold listPatients. simpl.
    rewrite Hfilter by by apply typed_sorted. simpl. fold sorted.
    rewrite slice_window by nia. unfold sorted.
    by rewrite (Permutation_length (sort_Permutation by_created_at_desc MOCK_DB)).
Qed.

(** The reference engine keeps the two laws of lower-casing. *)
Lemma reference_keeps_digits : lowercase_keeps_digits.
Proof. exact ascii_toLowerCase_keeps_digits. Qed.

Lemma reference_ascii : lowercase_ascii.
Proof. by intros s _. Qed.

Lemma sample_store_typed : Forall (λ p, typed_Patient p = true) Sample.store.
Proof. apply Forall_forall. intros p Hp. each_stored Hp; by_evaluation. Qed.

Lemma digitless_term_matches_all_witness :
  lowercase_keeps_digits ∧ "zzz" ≠ "" ∧ no_digit "zzz" = true ∧
  Forall (λ p, typed_Patient p = true) Sample.store ∧
  ∀ pg size, 1 <= pg → 1 <= size →
    listPatients {| page := Some pg; pageSize := Some size; search := Some "zzz" |}
      Sample.store =
      Ok {| data := take (Z.to_nat size)
                      (drop (Z.to_nat ((pg - 1) * size))
                         (sort by_created_at_desc Sample.store));
            count := 3 |}.
Proof.
  assert (Hne : "zzz" ≠ "") by discriminate.
  assert (Hno : no_digit "zzz" = true) by reflexivity.
  split_and!; [exact reference_keeps_digits | exact Hne | exact Hno
              | exact sample_store_typed |].
  apply (digitless_term_matches_all "zzz" reference_keeps_digits Hne Hno).
  exact sample_store_typed.
Defined.

Lemma listPatients_pagination_witness :
  Forall (λ p, typed_Patient p = true) Sample.store ∧
  ∃ filtered : list Patient,
    JS.filter (λ p, matchesSearch p "lima") (sort by_created_at_desc Sample.store)
      = Ok filtered ∧
    ∀ pg, 1 <= pg →
      listPatients {| page := Some pg; pageSize := Some 2; search := Some "lima" |}
        Sample.store =
        Ok {| data := take 2 (drop (Z.to_nat ((pg - 1) * 2)) filtered);
              count := Z.of_nat (length filtered) |}.
Proof.
  split; [exact sample_store_typed |].
  destruct (listPatients_pagination Sample.store "lima" sample_store_typed)
    as (filtered & Hfiltered & Hpages).
  exists filtered. split; [exact Hfiltered |].
  destruct (Hpages 2 ltac:(lia)) as (Hwindow & _). exact Hwindow.
Defined.

Lemma listPatients_search_witness :
  lowercase_keeps_digits ∧ lowercase_ascii ∧
  Forall (λ p, typed_Patient p = true) Sample.store ∧
  ∃ filtered,
    JS.filter (λ p, matchesSearch p "maria") (sort by_created_at_desc Sample.store)
      = Ok filtered ∧
    ∀ p name cpf,
      p ∈ Sample.store → get p "full_name" = VString name → get p "cpf" = VString cpf →
      (p ∈ filtered ↔
         "maria" = "" ∨
         (∃ a b, toLowerCase name = a +:+ toLowerCase "maria" +:+ b) ∨
         (∃ a b, strip_non_digits cpf = a +:+ strip_non_digits "maria" +:+ b)).
Proof.
  split_and!; [exact reference_keeps_digits | exact reference_ascii
              | exact sample_store_typed |].
  exact (proj1 (listPatients_search Sample.store reference_keeps_digits reference_ascii
                  sample_store_typed) "maria").
Defined.

(** * Further properties of the service and of its callers *)

(** ** Normalization *)

Section Normalization.

Lemma strip_is_digits (s : string) : all_digits (strip_non_digits s) = true.
Proof.
  induction s as [|c s IH]; simpl; [done |].
  destruct (is_digit c) eqn:Hc; simpl; [by rewrite Hc |]. done.
Qed.

Lemma strip_append (a b : string) :
  strip_non_digits (a +:+ b) = strip_non_digits a +:+ strip_non_digits b.
Proof.
  induction a as [|c a IH]; [done |].
  rewrite append_cons. simpl. destruct (is_digit c); [| done].
  by rewrite append_cons, IH.
Qed.

Lemma strip_length (s : string) :
  (String.length (strip_non_digits s) <= String.length s)%nat.
Proof.
  induction s as [|c s IH]; simpl; [done |].
  destruct (is_digit c); simpl; lia.
Qed.

End Normalization.

(** X1. [onlyDigits] answers on every string, and on [undefined] and
    [null], for which the answer is the empty string.  The answer has
    digits only and is no longer than the input; a string of digits is
    left as it is, so normalizing twice is normalizing once; and the
    digits of a concatenation are the digits of its parts. *)
Theorem onlyDigits_normal_form (s : string) :
  ∃ digits,
    onlyDigits (VString s) = Ok digits ∧
    all_digits digits = true ∧
    (String.length digits <= String.length s)%nat ∧
    onlyDigits (VString digits) = Ok digits ∧
    (all_digits s = true → digits = s) ∧
    (∀ t, onlyDigits (VString (s +:+ t)) = Ok (digits +:+ strip_non_digits t)) ∧
    onlyDigits VUndefined = Ok "" ∧ onlyDigits VNull = Ok "".
Proof.
  exists (strip_non_digits s). split_and!.
  - apply onlyDigits_string.
  - apply strip_is_digits.
  - apply strip_length.
  - rewrite onlyDigits_string. f_equal. apply strip_all_digits, strip_is_digits.
  - apply strip_all_digits.
  - intros t. by rewrite onlyDigits_string, strip_append.
  - done.
  - done.
Qed.

(** ** Looking a record up *)

Section Find.
Context {A : Type}.
Implicit Types (f : A → bool) (l : list A).

Lemma find_first f l (n : nat) x :
  l !! n = Some x → f x = true →
  (∀ j y, (j < n)%nat → l !! j = Some y → f y = false) →
  List.find f l = Some x.
Proof.
  revert n. induction l as [|y l IH]; intros n Hn Hx Hfirst; [done |].
  destruct n as [|n]; simpl in *.
  - injection Hn as ->. by rewrite Hx.
  - rewrite (Hfirst 0%nat y) by (done || lia).
    apply (IH n); [done | done |].
    intros j z Hj Hz. apply (Hfirst (S j)); [lia | done].
Qed.

Lemma find_absent f l : Forall (λ x, f x = false) l → List.find f l = None.
Proof. induction 1 as [|x l Hx _ IH]; simpl; [done |]. by rewrite Hx. Qed.

(** [find] answers the first element that qualifies, or nothing when
    none does. *)
Lemma find_cases f l :
  (List.find f l = None ∧ Forall (λ x, f x = false) l) ∨
  (∃ (n : nat) x,
      List.find f l = Some x ∧ l !! n = Some x ∧ f x = true ∧
      ∀ j y, (j < n)%nat → l !! j = Some y → f y = false).
Proof.
  induction l as [|y l IH]; [left; by split |].
  simpl. destruct (f y) eqn:Hy.
  - right. exists 0%nat, y. split_and!; [done.. |]. intros; lia.
  - destruct IH as [[Hnone Hall] | (n & x & Hfind & Hn & Hx & Hfirst)].
    + left. split; [done | by constructor].
    + right. exists (S n), x. split_and!; [done.. |].
      intros [|j] z Hj Hz; simpl in Hz; [congruence |].
      apply (Hfirst j); [lia | done].
Qed.

(** Replacing an element by another one that qualifies no more and no
    less leaves the answers of [find] for the other elements. *)
Lemma find_insert_other f l (n : nat) x y :
  l !! n = Some x → f x = false → f y = false →
  List.find f (<[n := y]> l) = List.find f l.
Proof.
  revert n. induction l as [|z l IH]; intros n Hn Hx Hy; [done |].
  destruct n as [|n]; simpl in *.
  - injection Hn as ->. by rewrite Hx, Hy.
  - destruct (f z); [done |]. by apply IH.
Qed.

Lemma find_filter f (g : A → bool) l :
  (∀ x, f x = true → g x = true) →
  List.find f (List.filter g l) = List.find f l.
Proof.
  intros Hfg. induction l as [|x l IH]; [done |]. simpl.
  destruct (g x) eqn:Hg; simpl.
  - destruct (f x); [done | exact IH].
  - destruct (f x) eqn:Hf; [| exact IH]. apply Hfg in Hf. congruence.
Qed.

Lemma find_snoc f l x :
  List.find f (l ++ [x]) =
    match List.find f l with
    | Some y => Some y
    | None => if f x then Some x else None
    end.
Proof.
  induction l as [|y l IH]; simpl; [done |].
  destruct (f y); [done | exact IH].
Qed.
End Find.

(** X2. [getPatientById] never rejects.  It answers [null] exactly
    when no stored record has the id, and otherwise the first record
    of the store that has it. *)
Theorem getPatientById_finds_first (id : string) (MOCK_DB : list Patient) :
  (getPatientById id MOCK_DB = Ok None ∧
   ∀ p, p ∈ MOCK_DB → get p "id" ≠ VString id) ∨
  (∃ (n : nat) p,
     getPatientById id MOCK_DB = Ok (Some p) ∧
     MOCK_DB !! n = Some p ∧ get p "id" = VString id ∧
     ∀ j q, (j < n)%nat → MOCK_DB !! j = Some q → get q "id" ≠ VString id).
Proof.
  unfold getPatientById.
  destruct (find_cases (λ p, strict_eq (get p "id") (VString id)) MOCK_DB)
    as [[-> Hall] | (n & p & -> & Hn & Hp & Hfirst)].
  - left. split; [done |]. rewrite Forall_forall in Hall.
    intros p Hp. by apply strict_eq_false, Hall.
  - right. exists n, p. split_and!; [done | done | by apply strict_eq_true |].
    intros j q Hj Hq. by apply strict_eq_false, (Hfirst j).
Qed.

Section Lookups.
Context `{Engine}.
Implicit Types (MOCK_DB : list Patient) (payload : obj).

(** A call of [updatePatient] that finds a record finds the first one
    with the id of the payload. *)
Lemma updatePatient_cases_first (now : Z) payload MOCK_DB :
  updatePatient now payload MOCK_DB =
    (Throw (Error "Paciente não encontrado"), MOCK_DB) ∨
  ∃ (n : nat) existing,
    MOCK_DB !! n = Some existing ∧ get existing "id" = get payload "id" ∧
    (∀ j p, (j < n)%nat → MOCK_DB !! j = Some p → get p "id" ≠ get payload "id") ∧
    updatePatient now payload MOCK_DB =
      (Ok (<["updated_at" := VString (toISOString now)]> (payload ∪ existing)),
       <[n := <["updated_at" := VString (toISOString now)]> (payload ∪ existing)]> MOCK_DB).
Proof.
  destruct (findIndex_cases (λ p, strict_eq (get p "id") (get payload "id")) MOCK_DB)
    as [[_ Hall] | (n & x & _ & Hn & Hx & Hfirst)].
  - left. apply updatePatient_missing. rewrite Forall_forall in Hall.
    intros p Hp. by apply strict_eq_false, Hall.
  - right. exists n, x. apply strict_eq_true in Hx.
    assert (Hf : ∀ j p, (j < n)%nat → MOCK_DB !! j = Some p →
                        get p "id" ≠ get payload "id").
    { intros j p Hj Hp. by apply strict_eq_false, (Hfirst j). }
    split_and!; [done | done | done |]. by apply updatePatient_found.
Qed.

Lemma created_id (now uuid : string) payload :
  get (<["updated_at" := VString now]>
         (<["created_at" := VString now]> (<["id" := VString uuid]> payload))) "id"
  = VString uuid.
Proof. unfold get. by rewrite lookup_insert_ne, lookup_insert_ne, lookup_insert_eq. Qed.

(** [updatePatient] leaves the ids where they are. *)
Lemma updatePatient_ids (now : Z) payload MOCK_DB :
  map (λ p, get p "id") (updatePatient now payload MOCK_DB).2
  = map (λ p, get p "id") MOCK_DB.
Proof.
  destruct (updatePatient_cases now payload MOCK_DB)
    as [-> | (n & existing & Hn & Hid & ->)]; [done |]. simpl.
  apply list_eq. intros j. rewrite !list_lookup_fmap.
  destruct (decide (j = n)) as [-> | Hj].
  - rewrite list_lookup_insert_eq by (by eapply lookup_lt_Some).
    rewrite Hn. simpl. by rewrite merged_id.
  - by rewrite list_lookup_insert_ne.
Qed.
End Lookups.

(** X3. In a store reached by any history, a record created with an id
    that was not issued before is what [getPatientById] answers for
    that id afterwards, and the answer for every other id is what it
    was before the creation. *)
Theorem created_then_fetched `{Engine} (history : list call)
    (now : Z) (uuid : string) (payload : obj) :
  uuid ∉ issued_ids history →
  ∃ entity after,
    createPatient now uuid payload (run history) = (Ok entity, after) ∧
    getPatientById uuid after = Ok (Some entity) ∧
    ∀ id, id ≠ uuid → getPatientById id after = getPatientById id (run history).
Proof.
  intros Hfresh. do 2 eexists. split; [reflexivity |].
  unfold getPatientById. split.
  - rewrite find_snoc, find_absent.
    + by rewrite created_id, (proj2 (strict_eq_true _ _) eq_refl).
    + apply Forall_forall. intros p Hp. apply strict_eq_false.
      destruct (stored_ids_issued _ _ Hp) as (u & -> & Hu). intros [= ->]. done.
  - intros id Hid. rewrite find_snoc. rewrite created_id.
    destruct (List.find _ (run history)); [done |].
    rewrite (proj2 (strict_eq_false _ _)); [done |]. intros [= ->]. done.
Qed.

Lemma created_then_fetched_witness :
  (Sample.id4 ∉ issued_ids Sample.history) ∧
  ∃ entity after,
    createPatient (Sample.T3 + 5000) Sample.id4 Sample.ana (run Sample.history)
      = (Ok entity, after) ∧
    getPatientById Sample.id4 after = Ok (Some entity) ∧
    ∀ id, id ≠ Sample.id4 →
      getPatientById id after = getPatientById id (run Sample.history).
Proof.
  assert (Hfresh : Sample.id4 ∉ issued_ids Sample.history).
  { intros Hin. apply list_elem_of_In in Hin. simpl in Hin.
    repeat (destruct Hin as [Hin | Hin]; [discriminate Hin |]). destruct Hin. }
  split; [exact Hfresh |].
  exact (created_then_fetched Sample.history (Sample.T3 + 5000) Sample.id4 Sample.ana Hfresh).
Defined.

(** X4. After an update that succeeds, [getPatientById] answers the
    record the update returned for the id of the payload, and for
    every other id what it answered before. *)
Theorem updated_then_fetched `{Engine} (now : Z) (payload : obj) (id : string)
    (MOCK_DB : list Patient) (updated : Patient) (after : list Patient) :
  get payload "id" = VString id →
  updatePatient now payload MOCK_DB = (Ok updated, after) →
  get updated "id" = VString id ∧
  getPatientById id after = Ok (Some updated) ∧
  (∀ id', id' ≠ id → getPatientById id' after = getPatientById id' MOCK_DB).
Proof.
  intros Hpayload Hrun.
  destruct (updatePatient_cases_first now payload MOCK_DB)
    as [Hu | (n & existing & Hn & Hid & Hfirst & Hu)];
    rewrite Hu in Hrun; [discriminate |].
  injection Hrun as <- <-.
  assert (Hnew : get (<["updated_at" := VString (toISOString now)]> (payload ∪ existing)) "id"
                 = VString id) by (by rewrite merged_id, Hid).
  split; [exact Hnew |]. unfold getPatientById. split.
  - f_equal. apply (find_first _ _ n).
    + apply list_lookup_insert_eq. by eapply lookup_lt_Some.
    + by apply strict_eq_true.
    + intros j p Hj Hp. rewrite list_lookup_insert_ne in Hp by lia.
      apply strict_eq_false. rewrite <- Hpayload. by eapply Hfirst.
  - intros id' Hid'. f_equal. apply (find_insert_other _ _ n existing); [done | |].
    + apply strict_eq_false. rewrite Hid, Hpayload. intros [= ->]. done.
    + apply strict_eq_false. rewrite Hnew. intros [= ->]. done.
Qed.

Lemma updated_then_fetched_witness :
  get Sample.move_ana "id" = VString Sample.id2 ∧
  ∃ updated after,
    updatePatient (Sample.T3 + 1000) Sample.move_ana Sample.store = (Ok updated, after) ∧
    getPatientById Sample.id2 after = Ok (Some updated).
Proof.
  assert (Hid : get Sample.move_ana "id" = VString Sample.id2) by by_evaluation.
  split; [exact Hid |].
  assert (Hrun : updatePatient (Sample.T3 + 1000) Sample.move_ana Sample.store =
    (Ok (<["updated_at" := VString (toISOString (Sample.T3 + 1000))]>
           (Sample.move_ana ∪ Sample.ana_stored)),
     <[1%nat := <["updated_at" := VString (toISOString (Sample.T3 + 1000))]>
                  (Sample.move_ana ∪ Sample.ana_stored)]> Sample.store)).
  { apply (updatePatient_found _ _ _ 1 Sample.ana_stored); [reflexivity | by_evaluation |].
    intros [|j] p Hj Hp; [| lia]. injection Hp as <-. apply strict_eq_false. by_evaluation. }
  do 2 eexists. split; [exact Hrun |].
  exact (proj1 (proj2 (updated_then_fetched _ _ _ _ _ _ Hid Hrun))).
Defined.

(** X5. After [deletePatient], [getPatientById] answers [null] for the
    id deleted and what it answered before for every other id, and an
    update aimed at the id deleted is rejected as not found and
    changes nothing. *)
Theorem deleted_then_absent `{Engine} (id : string) (MOCK_DB : list Patient) :
  let after := (deletePatient id MOCK_DB).2 in
  getPatientById id after = Ok None ∧
  (∀ id', id' ≠ id → getPatientById id' after = getPatientById id' MOCK_DB) ∧
  (∀ now payload, get payload "id" = VString id →
     updatePatient now payload after = (Throw (Error "Paciente não encontrado"), after)).
Proof.
  simpl.
  assert (Hgone : ∀ p,
    p ∈ List.filter (λ p, negb (strict_eq (get p "id") (VString id))) MOCK_DB →
    get p "id" ≠ VString id).
  { intros p Hp. apply list_elem_of_In, filter_In in Hp as [_ Hp].
    by apply strict_eq_false, negb_true_iff. }
  split_and!.
  - unfold getPatientById. f_equal. apply find_absent, Forall_forall.
    intros p Hp. by apply strict_eq_false, Hgone.
  - intros id' Hid'. unfold getPatientById. f_equal. apply find_filter.
    intros p Hp. apply strict_eq_true in Hp. apply negb_true_iff, strict_eq_false.
    rewrite Hp. intros [= ->]. done.
  - intros now payload Hpayload. apply updatePatient_missing.
    intros p Hp. rewrite Hpayload. by apply Hgone.
Qed.

Section Identity.
Context `{Engine}.
Implicit Types (MOCK_DB : list Patient) (payload : obj).

Lemma exec_ids_create (now : Z) (uuid : string) payload MOCK_DB :
  map (λ p, get p "id") (exec MOCK_DB (Create now uuid payload))
  = map (λ p, get p "id") MOCK_DB ++ [VString uuid].
Proof.
  unfold exec, createPatient. simpl. rewrite map_app. simpl.
  by rewrite (created_id (toISOString now) uuid payload).
Qed.

Lemma filter_ids_sublist (f : Patient → bool) MOCK_DB :
  sublist (map (λ p, get p "id") (List.filter f MOCK_DB)) (map (λ p, get p "id") MOCK_DB).
Proof.
  induction MOCK_DB as [| p l IH]; simpl; [constructor |].
  destruct (f p); simpl; by constructor.
Qed.

Lemma stored_ids_NoDup (history : list call) :
  NoDup (issued_ids history) → NoDup (map (λ p, get p "id") (run history)).
Proof.
  induction history as [| c history IH] using rev_ind; intros Hfresh.
  - constructor.
  - rewrite run_snoc. rewrite issued_ids_snoc in Hfresh.
    destruct c as [now uuid payload | now payload | id].
    + simpl in Hfresh. apply NoDup_app in Hfresh as (Hold & Hnew & _).
      rewrite exec_ids_create. apply NoDup_app. split_and!.
      * by apply IH.
      * intros v Hv Hin. apply list_elem_of_singleton in Hin as ->.
        apply list_elem_of_In, in_map_iff in Hv as (p & Hp & Hin).
        apply list_elem_of_In in Hin.
        destruct (stored_ids_issued _ _ Hin) as (u & Hu & Hissued).
        rewrite Hu in Hp. injection Hp as ->.
        apply (Hnew uuid Hissued). by apply list_elem_of_singleton.
      * apply NoDup_singleton.
    + simpl in Hfresh. rewrite app_nil_r in Hfresh.
      unfold exec. rewrite updatePatient_ids. by apply IH.
    + simpl in Hfresh. rewrite app_nil_r in Hfresh.
      unfold exec. simpl. eapply sublist_NoDup; [by apply IH |]. apply filter_ids_sublist.
Qed.
End Identity.

(** X6. When the generator never issues the same id twice, the ids of
    the records of a store reached by any history of calls are
    pairwise distinct: no id occurs at two positions, so two stored
    records with the same id are one record and [getPatientById]
    answers the only record with the id it is given. *)
Theorem stored_ids_unique `{Engine} (history : list call) :
  NoDup (issued_ids history) →
  NoDup (map (λ p, get p "id") (run history)) ∧
  (∀ (i j : nat) p q, run history !! i = Some p → run history !! j = Some q →
     get p "id" = get q "id" → i = j) ∧
  (∀ (id : string) p, p ∈ run history → get p "id" = VString id →
     getPatientById id (run history) = Ok (Some p)).
Proof.
  intros Hfresh. pose proof (stored_ids_NoDup history Hfresh) as Hnodup.
  assert (Hinj : ∀ (i j : nat) p q, run history !! i = Some p → run history !! j = Some q →
            get p "id" = get q "id" → i = j).
  { intros i j p q Hi Hj Heq. eapply NoDup_lookup; [exact Hnodup | |].
    - rewrite list_lookup_fmap, Hi. reflexivity.
    - rewrite list_lookup_fmap, Hj. simpl. by rewrite Heq. }
  split_and!; [done | done |].
  intros id p Hp Hid. apply list_elem_of_lookup in Hp as [i Hi].
  unfold getPatientById. f_equal. apply (find_first _ _ i); [done | by apply strict_eq_true |].
  intros j q Hj Hq. apply strict_eq_false. intros Heq.
  assert (j = i) by (eapply Hinj; [exact Hq | exact Hi | by rewrite Heq, Hid]). lia.
Qed.

Lemma stored_ids_unique_witness :
  NoDup (issued_ids Sample.history) ∧
  NoDup (map (λ p, get p "id") (run Sample.history)).
Proof.
  assert (Hfresh : NoDup (issued_ids Sample.history)).
  { simpl. repeat (apply NoDup_cons; split;
      [ intros Hin; apply list_elem_of_In in Hin; simpl in Hin;
        repeat (destruct Hin as [Hin | Hin]; [discriminate Hin |]); destruct Hin |]).
    apply NoDup_nil. done. }
  split; [exact Hfresh |]. exact (proj1 (stored_ids_unique Sample.history Hfresh)).
Defined.

(** X7. [updatePatient] never adds, removes or moves a record: whether
    it resolves or rejects, the store has the same length and the same
    ids at the same positions as before, and at most one position
    holds a different record. *)
Theorem updatePatient_keeps_ids `{Engine} (now : Z) (payload : obj)
    (MOCK_DB : list Patient) :
  let after := (updatePatient now payload MOCK_DB).2 in
  length after = length MOCK_DB ∧
  map (λ p, get p "id") after = map (λ p, get p "id") MOCK_DB ∧
  ∃ n : nat, ∀ j : nat, j ≠ n → after !! j = MOCK_DB !! j.
Proof.
  simpl. split_and!.
  - rewrite <- (length_map (λ p, get p "id")), updatePatient_ids. apply length_map.
  - apply updatePatient_ids.
  - destruct (updatePatient_cases now payload MOCK_DB)
      as [-> | (n & existing & _ & _ & ->)].
    + by exists 0%nat.
    + exists n. intros j Hj. simpl. by apply list_lookup_insert_ne.
Qed.

(** X8. Deleting the id a record was just created with undoes the
    creation: the store is what deleting that id from the store before
    the creation gives, and it is the store before the creation itself
    when no record had that id. *)
Theorem create_then_delete `{Engine} (now : Z) (uuid : string) (payload : obj)
    (MOCK_DB : list Patient) :
  (deletePatient uuid (createPatient now uuid payload MOCK_DB).2).2
    = (deletePatient uuid MOCK_DB).2 ∧
  ((∀ p, p ∈ MOCK_DB → get p "id" ≠ VString uuid) →
   (deletePatient uuid (createPatient now uuid payload MOCK_DB).2).2 = MOCK_DB).
Proof.
  assert (Hfirst : (deletePatient uuid (createPatient now uuid payload MOCK_DB).2).2
                   = (deletePatient uuid MOCK_DB).2).
  { simpl. rewrite List.filter_app. simpl. rewrite created_id.
    rewrite (proj2 (strict_eq_true _ _) eq_refl). simpl. apply app_nil_r. }
  split; [exact Hfirst |]. intros Hfresh. rewrite Hfirst. simpl.
  apply filter_all, Forall_forall. intros p Hp.
  apply negb_true_iff, strict_eq_false. by apply Hfresh.
Qed.

(** X9. Deletions commute, and a deletion never lets the store grow:
    the records left are a sublist of the records before. *)
Theorem deletePatient_commutes (a b : string) (MOCK_DB : list Patient) :
  (deletePatient a (deletePatient b MOCK_DB).2).2
    = (deletePatient b (deletePatient a MOCK_DB).2).2 ∧
  sublist (deletePatient a MOCK_DB).2 MOCK_DB ∧
  (length (deletePatient a MOCK_DB).2 ≤ length MOCK_DB)%nat.
Proof.
  simpl. split_and!.
  - induction MOCK_DB as [| p l IH]; [done |]. simpl.
    destruct (strict_eq (get p "id") (VString a)) eqn:Ha,
             (strict_eq (get p "id") (VString b)) eqn:Hb;
      simpl; rewrite ?Ha, ?Hb; simpl; by rewrite IH.
  - apply filter_sublist.
  - apply sublist_length, filter_sublist.
Qed.

(** ** The listing outside the contract of its callers *)

Section FilterFacts.
Context {A : Type}.
Implicit Types (f : A → result bool) (l : list A).

(** A [filter] that answers has called back on every element without
    an exception. *)
Lemma filter_inv f l r :
  JS.filter f l = Ok r →
  Forall (λ x, ∃ b, f x = Ok b) l ∧
  r = List.filter (λ x, match f x with Ok b => b | Throw _ => false end) l.
Proof.
  revert r. induction l as [|x l IH]; intros r Hr; simpl in Hr.
  - injection Hr as <-. by split.
  - destruct (f x) as [b|e] eqn:Hx; simpl in Hr; [| discriminate].
    destruct (JS.filter f l) as [r'|e] eqn:Hl; simpl in Hr; [| discriminate].
    injection Hr as <-. destruct (IH r' eq_refl) as [Hall ->]. split.
    + constructor; [by exists b | done].
    + simpl. by rewrite Hx.
Qed.

(** A [filter] that throws rethrows what a callback threw. *)
Lemma filter_throws f l e :
  JS.filter f l = Throw e → ∃ x, x ∈ l ∧ f x = Throw e.
Proof.
  induction l as [|x l IH]; intros Hr; simpl in Hr; [discriminate |].
  destruct (f x) as [b|e'] eqn:Hx; simpl in Hr.
  - destruct (JS.filter f l) as [r'|e'] eqn:Hl; simpl in Hr; [discriminate |].
    injection Hr as ->. destruct (IH eq_refl) as (y & Hy & Hfy).
    exists y. split; [by apply list_elem_of_further | done].
  - injection Hr as ->. exists x. split; [apply list_elem_of_here | done].
Qed.

Lemma filter_answers f l :
  Forall (λ x, ∃ b, f x = Ok b) l → ∃ r, JS.filter f l = Ok r.
Proof.
  induction 1 as [|x l [b Hx] _ [r IH]]; [by exists [] |].
  simpl. rewrite Hx, IH. simpl. by eexists.
Qed.

Lemma slice_sublist l (from to : Z) : slice l from to `sublist_of` l.
Proof.
  unfold slice. etrans; [apply sublist_take | apply sublist_drop].
Qed.
End FilterFacts.

Section Unsearchable.
Context `{Engine}.
Implicit Types (p : Patient) (MOCK_DB : list Patient).

(** [onlyDigits] reads a string, reads the empty string in place of a
    falsy value, and throws on any other value. *)
Lemma onlyDigits_cases (v : value) :
  onlyDigits v =
    if is_string v || negb (truthy v)
    then Ok (match v with VString s => strip_non_digits s | _ => "" end)
    else Throw TypeError.
Proof.
  destruct v as [| |s|n|ref]; unfold onlyDigits; simpl; try done.
  - by destruct (String.eqb_spec s "") as [->|].
  - by destruct (n =? 0).
Qed.

(** With a term that is not empty, [matchesSearch] answers on the
    records it can read and throws a [TypeError] on the others. *)
Lemma matchesSearch_cases p (term : string) :
  term ≠ "" →
  if searchable p then ∃ b, matchesSearch p term = Ok b
  else matchesSearch p term = Throw TypeError.
Proof.
  intros Hterm. unfold matchesSearch, searchable.
  destruct (String.eqb_spec term "") as [| _]; [done |].
  rewrite (onlyDigits_cases (get p "cpf")), onlyDigits_string.
  destruct (is_string (get p "cpf") || negb (truthy (get p "cpf")));
    destruct (get p "full_name") as [| |name|m|ref']; simpl; try done.
  destruct (includes (toLowerCase name) (toLowerCase term)); by eexists.
Qed.

Lemma created_full_name (now uuid : string) (payload : obj) :
  get (<["updated_at" := VString now]>
         (<["created_at" := VString now]> (<["id" := VString uuid]> payload))) "full_name"
  = get payload "full_name".
Proof. unfold get. by rewrite !lookup_insert_ne. Qed.
End Unsearchable.

(** X10. With a search term that is not empty, [listPatients] answers
    exactly when every stored record can be read by the search (its
    [full_name] is a string and its [cpf] is a string or falsy);
    otherwise it rejects with a [TypeError].  The service checks
    nothing when it stores: after [createPatient] is given a payload
    whose [full_name] is not a string, every such search rejects. *)
Theorem listPatients_rejects_unsearchable `{Engine}
    (params : ListPatientsParams) (MOCK_DB : list Patient) :
  default "" (search params) ≠ "" →
  ((∃ r, listPatients params MOCK_DB = Ok r) ↔
   Forall (λ p, searchable p = true) MOCK_DB) ∧
  (¬ Forall (λ p, searchable p = true) MOCK_DB →
   listPatients params MOCK_DB = Throw TypeError) ∧
  (∀ now uuid payload,
     is_string (get payload "full_name") = false →
     listPatients params (createPatient now uuid payload MOCK_DB).2 = Throw TypeError).
Proof.
  intros Hterm.
  set (term := default "" (search params)) in *.
  set (sorted := sort by_created_at_desc MOCK_DB).
  assert (Hlist : ∀ db,
    listPatients params db =
      filtered ← JS.filter (λ p, matchesSearch p term) (sort by_created_at_desc db);
      Ok {| data := slice filtered
                      ((default 1 (page params) - 1) * default 10 (pageSize params))
                      ((default 1 (page params) - 1) * default 10 (pageSize params)
                       + default 10 (pageSize params));
            count := Z.of_nat (length filtered) |}) by reflexivity.
  assert (Hiff : ∀ db, (∃ r, listPatients params db = Ok r) ↔
                       Forall (λ p, searchable p = true) db).
  { intros db. rewrite Hlist. split.
    - intros [r Hr].
      destruct (JS.filter _ (sort by_created_at_desc db)) as [filtered|e] eqn:Hf;
        [| discriminate].
      apply filter_inv in Hf as [Hall _]. rewrite sort_Permutation in Hall.
      eapply Forall_impl; [exact Hall |]. intros p [b Hb]. simpl in Hb.
      pose proof (matchesSearch_cases p term Hterm) as Hc.
      destruct (searchable p); [done | congruence].
    - intros Hall.
      destruct (filter_answers (λ p, matchesSearch p term) (sort by_created_at_desc db))
        as [filtered ->].
      + rewrite sort_Permutation. eapply Forall_impl; [exact Hall |].
        intros p Hp. simpl. pose proof (matchesSearch_cases p term Hterm) as Hc.
        by rewrite Hp in Hc.
      + simpl. by eexists. }
  assert (Hthrow : ∀ db, ¬ Forall (λ p, searchable p = true) db →
                         listPatients params db = Throw TypeError).
  { intros db Hnot. destruct (listPatients params db) as [r|e] eqn:Hr.
    - exfalso. apply Hnot, Hiff. by exists r.
    - rewrite Hlist in Hr.
      destruct (JS.filter _ (sort by_created_at_desc db)) as [filtered|e'] eqn:Hf;
        [discriminate |].
      simpl in Hr. injection Hr as ->.
      apply filter_throws in Hf as (p & _ & Hp).
      pose proof (matchesSearch_cases p term Hterm) as Hc.
      destruct (searchable p); [destruct Hc; congruence | congruence]. }
  split_and!; [apply Hiff | apply Hthrow |].
  intros now uuid payload Hname. apply Hthrow. intros Hall.
  change (createPatient now uuid payload MOCK_DB).2 with
    (MOCK_DB ++ [<["updated_at" := VString (toISOString now)]>
                   (<["created_at" := VString (toISOString now)]>
                      (<["id" := VString uuid]> payload))]) in Hall.
  apply Forall_app in Hall as [_ Hnew]. rewrite Forall_singleton in Hnew.
  unfold searchable in Hnew.
  rewrite (created_full_name (toISOString now) uuid payload), Hname in Hnew. done.
Qed.

Lemma listPatients_rejects_unsearchable_witness :
  default "" (search {| page := None; pageSize := None; search := Some "maria" |}) ≠ "" ∧
  listPatients {| page := None; pageSize := None; search := Some "maria" |}
    (createPatient Sample.T3 Sample.id4 {[ "cpf" := VString "12345678901" ]}
       Sample.store).2 = Throw TypeError.
Proof.
  assert (Hterm : default "" (search {| page := None; pageSize := None;
                                         search := Some "maria" |}) ≠ "") by done.
  split; [exact Hterm |].
  apply (listPatients_rejects_unsearchable _ Sample.store Hterm). reflexivity.
Defined.

(** X11. Whatever the parameters, also a page or a page size that is
    zero or negative, an answer of [listPatients] is bounded by the
    store: [count] is at most the number of stored records, [data]
    holds at most [count] records, it is a sublist of the sorted
    store, each of its records is stored and matches the term, and for
    a page from 1 on it holds at most [pageSize] records. *)
Theorem listPatients_bounds `{Engine} (params : ListPatientsParams)
    (MOCK_DB : list Patient) (r : ListPatientsResult) :
  listPatients params MOCK_DB = Ok r →
  0 <= count r <= Z.of_nat (length MOCK_DB) ∧
  Z.of_nat (length (data r)) <= count r ∧
  data r `sublist_of` sort by_created_at_desc MOCK_DB ∧
  (∀ p, p ∈ data r →
     p ∈ MOCK_DB ∧ matchesSearch p (default "" (search params)) = Ok true) ∧
  (1 <= default 1 (page params) → 0 <= default 10 (pageSize params) →
   Z.of_nat (length (data r)) <= default 10 (pageSize params)).
Proof.
  unfold listPatients. intros Hr.
  destruct (JS.filter _ (sort by_created_at_desc MOCK_DB)) as [filtered|e] eqn:Hf;
    [| discriminate].
  simpl in Hr. injection Hr as <-. simpl.
  apply filter_inv in Hf as [_ Hf].
  assert (Hsub : filtered `sublist_of` sort by_created_at_desc MOCK_DB)
    by (rewrite Hf; apply filter_sublist).
  pose proof (sublist_length _ _ Hsub) as Hlen.
  rewrite (Permutation_length (sort_Permutation _ _)) in Hlen.
  pose proof (sublist_length _ _ (slice_sublist filtered
    ((default 1 (page params) - 1) * default 10 (pageSize params))
    ((default 1 (page params) - 1) * default 10 (pageSize params)
     + default 10 (pageSize params)))) as Hwin.
  split_and!.
  - lia.
  - lia.
  - lia.
  - etrans; [apply slice_sublist | exact Hsub].
  - intros p Hp.
    assert (Hin : p ∈ filtered) by (eapply elem_of_sublist; [exact Hp | apply slice_sublist]).
    rewrite Hf in Hin. apply list_elem_of_In, filter_In in Hin as [Hin Hm].
    apply list_elem_of_In in Hin. rewrite sort_Permutation in Hin.
    split; [done |]. destruct (matchesSearch p _) as [[]|]; done.
  - intros Hpage Hsize. rewrite slice_window by nia.
    rewrite length_take. lia.
Qed.

Lemma listPatients_bounds_witness :
  listPatients {| page := Some (-1); pageSize := Some 2; search := Some "a" |} Sample.store
    = Ok {| data := take 1 (sort by_created_at_desc Sample.store); count := 3 |} ∧
  0 <= 3 <= Z.of_nat (length Sample.store).
Proof.
  assert (Hr : listPatients {| page := Some (-1); pageSize := Some 2; search := Some "a" |}
                 Sample.store
               = Ok {| data := take 1 (sort by_created_at_desc Sample.store);
                       count := 3 |}) by reflexivity.
  split; [exact Hr |]. exact (proj1 (listPatients_bounds _ _ _ Hr)).
Defined.

(** X12. Page 0 and page size 0 are answered, with an empty page:
    whatever the store and the term, [data] is empty when the page is
    0 or the page size is 0.  And [count] depends on the store and on
    the term only: two answers for the same term carry the same
    [count], whatever pages they are. *)
Theorem listPatients_empty_window `{Engine} (params : ListPatientsParams)
    (MOCK_DB : list Patient) (r : ListPatientsResult) :
  listPatients params MOCK_DB = Ok r →
  (default 1 (page params) = 0 ∨ default 10 (pageSize params) = 0 → data r = []) ∧
  (∀ params' r',
     default "" (search params') = default "" (search params) →
     listPatients params' MOCK_DB = Ok r' → count r' = count r).
Proof.
  unfold listPatients. intros Hr.
  destruct (JS.filter _ (sort by_created_at_desc MOCK_DB)) as [filtered|e] eqn:Hf;
    [| discriminate].
  simpl in Hr. injection Hr as <-. simpl. split.
  - unfold slice.
    set (len := Z.of_nat (length filtered)).
    assert (0 <= len) by lia.
    intros [-> | ->].
    + match goal with |- take ?n _ = [] => replace n with 0%nat; [done |] end.
      destruct (Z.ltb_spec ((0 - 1) * default 10 (pageSize params)) 0);
        destruct (Z.ltb_spec ((0 - 1) * default 10 (pageSize params)
                              + default 10 (pageSize params)) 0); lia.
    + match goal with |- take ?n _ = [] => replace n with 0%nat; [done |] end.
      destruct (Z.ltb_spec ((default 1 (page params) - 1) * 0) 0);
        destruct (Z.ltb_spec ((default 1 (page params) - 1) * 0 + 0) 0); lia.
  - intros params' r' Hsame Hr'. rewrite Hsame, Hf in Hr'. simpl in Hr'.
    by injection Hr' as <-.
Qed.

Lemma listPatients_empty_window_witness :
  listPatients {| page := Some 0; pageSize := Some 2; search := None |} Sample.store
    = Ok {| data := []; count := 3 |} ∧
  (∀ params' r',
     default "" (search params') = "" →
     listPatients params' Sample.store = Ok r' → count r' = 3).
Proof.
  assert (Hr : listPatients {| page := Some 0; pageSize := Some 2; search := None |}
                 Sample.store = Ok {| data := []; count := 3 |}) by reflexivity.
  split; [exact Hr |]. exact (proj2 (listPatients_empty_window _ _ _ Hr)).
Defined.

Section Chronology.
Context `{Engine}.
Implicit Types (p : Patient) (MOCK_DB : list Patient) (history : list call).

(** An element that has to follow every element of a sorted list is
    put at its end. *)
Lemma sort_insert_last {A} (cmp : A → A → option Z) (x : A) (l : list A) :
  Forall (λ y, comes_after cmp x y = true) l → sort_insert cmp x l = l ++ [x].
Proof.
  induction 1 as [|y l Hy _ IH]; [done |]. simpl. by rewrite Hy, IH.
Qed.

(** A store whose creation instants strictly increase is listed in
    reverse. *)
Lemma sort_ascending MOCK_DB (ts : list Z) :
  map created_time MOCK_DB = map Some ts → StronglySorted Z.lt ts →
  sort by_created_at_desc MOCK_DB = reverse MOCK_DB.
Proof.
  revert ts. induction MOCK_DB as [|x l IH]; intros [|t ts] Hts Hs; try done.
  simpl in Hts. injection Hts as Hx Hts.
  apply StronglySorted_inv in Hs as [Hs Ht].
  rewrite sort_cons, (IH ts Hts Hs), reverse_cons. apply sort_insert_last.
  apply Forall_forall. intros y Hy. rewrite elem_of_reverse in Hy.
  apply list_elem_of_lookup in Hy as [i Hi].
  assert (Hyt : created_time y ∈ map created_time l).
  { apply list_elem_of_lookup. exists i. by rewrite list_lookup_fmap, Hi. }
  rewrite Hts in Hyt. apply list_elem_of_fmap in Hyt as (ty & Hty & Hin).
  rewrite Forall_forall in Ht. apply Ht in Hin.
  unfold comes_after, by_created_at_desc. rewrite Hx, Hty. simpl.
  apply Z.ltb_lt. lia.
Qed.

Lemma creation_readings_snoc history (c : call) :
  creation_readings (history ++ [c]) =
    creation_readings history ++ match c with Create now _ _ => [now] | _ => [] end.
Proof.
  unfold creation_readings. rewrite map_app, concat_app. simpl. by rewrite app_nil_r.
Qed.

Lemma filter_instants (f : Patient → bool) MOCK_DB (ts : list Z) :
  map created_time MOCK_DB = map Some ts →
  ∃ ts', map created_time (List.filter f MOCK_DB) = map Some ts' ∧ ts' `sublist_of` ts.
Proof.
  revert ts. induction MOCK_DB as [|x l IH]; intros [|t ts] Hts; try done.
  - by exists [].
  - simpl in Hts. injection Hts as Hx Hts. destruct (IH ts Hts) as (ts' & Hts' & Hsub).
    simpl. destruct (f x).
    + exists (t :: ts'). simpl. rewrite Hx, Hts'. split; [done | by constructor].
    + exists ts'. split; [done | by constructor].
Qed.

(** An update whose payload has no [created_at] leaves the creation
    instants as they are. *)
Lemma updatePatient_instants (now : Z) (payload : obj) MOCK_DB :
  payload !! "created_at" = None →
  map created_time (updatePatient now payload MOCK_DB).2 = map created_time MOCK_DB.
Proof.
  intros Hpayload.
  destruct (updatePatient_cases now payload MOCK_DB)
    as [-> | (n & existing & Hn & Hid & ->)]; [done |]. simpl.
  apply list_eq. intros j. rewrite !list_lookup_fmap.
  destruct (decide (j = n)) as [-> | Hj]; [| by rewrite list_lookup_insert_ne].
  rewrite list_lookup_insert_eq by (by eapply lookup_lt_Some).
  rewrite Hn. simpl. f_equal. unfold created_time, get.
  rewrite lookup_insert_ne by done.
  by rewrite (lookup_union_r payload existing "created_at" Hpayload).
Qed.

(** The creation instants of the stored records are readings of the
    clock by [createPatient], in the order of their creation. *)
Lemma stored_instants history :
  Forall typed history → Forall clock_ok (creation_readings history) →
  ∃ ts, map created_time (run history) = map Some ts ∧
        ts `sublist_of` creation_readings history.
Proof.
  induction history as [| c history IH] using rev_ind; intros Htyped Hclock.
  - by exists [].
  - rewrite run_snoc, creation_readings_snoc.
    rewrite creation_readings_snoc in Hclock.
    apply Forall_app in Htyped as [Htyped Hc]. rewrite Forall_singleton in Hc.
    apply Forall_app in Hclock as [Hclock Hnow].
    destruct (IH Htyped Hclock) as (ts & Hts & Hsub).
    destruct c as [now uuid payload | now payload | id].
    + rewrite Forall_singleton in Hnow. exists (ts ++ [now]). split.
      * unfold exec, createPatient. simpl. rewrite !map_app, Hts. simpl.
        by rewrite (created_time_created now uuid payload Hnow).
      * by apply sublist_app.
    + exists ts. rewrite app_nil_r. split; [| done].
      unfold exec. rewrite updatePatient_instants; [done |]. apply Hc.
    + rewrite app_nil_r. unfold exec, deletePatient. simpl.
      destruct (filter_instants
                  (λ p, negb (strict_eq (get p "id") (VString id))) (run history) ts Hts)
        as (ts' & Hts' & Hsub').
      exists ts'. split; [done | by etrans].
Qed.

Lemma sublist_StronglySorted {A} (R : A → A → Prop) (l k : list A) :
  l `sublist_of` k → StronglySorted R k → StronglySorted R l.
Proof.
  induction 1 as [|x l k Hsub IH|x l k Hsub IH]; intros Hs.
  - constructor.
  - apply StronglySorted_inv in Hs as [Hs Hx]. constructor; [by apply IH |].
    apply Forall_forall. intros y Hy. rewrite Forall_forall in Hx.
    apply Hx. by eapply elem_of_sublist.
  - apply StronglySorted_inv in Hs as [Hs _]. by apply IH.
Qed.

(** Putting a record into the sorted list does not change the order
    of the records of one instant. *)
Lemma sort_insert_stable (t : Z) (x : Patient) (l : list Patient) :
  List.filter (λ p, bool_decide (created_time p = Some t)) (sort_insert by_created_at_desc x l)
  = List.filter (λ p, bool_decide (created_time p = Some t)) (x :: l).
Proof.
  induction l as [|y l IH]; [done |]. simpl sort_insert.
  destruct (comes_after by_created_at_desc x y) eqn:Hxy; [| done].
  simpl. rewrite IH. simpl.
  unfold comes_after, by_created_at_desc in Hxy.
  destruct (created_time x) as [tx|] eqn:Hx; [| done].
  destruct (created_time y) as [ty|] eqn:Hy; [| done].
  simpl in Hxy. apply Z.ltb_lt in Hxy.
  destruct (bool_decide_reflect (Some tx = Some t)) as [[= ->]|];
    destruct (bool_decide_reflect (Some ty = Some t)) as [[= ->]|]; try done. lia.
Qed.
End Chronology.

(** X13. When the payloads of the updates are [PatientUpdate]s and the
    readings of the clock by [createPatient] are instants it can show
    and strictly increase, the listing is the store in reverse: the
    record created last is listed first, and an update or a deletion
    in between does not change the order of the others. *)
Theorem listing_newest_first `{Engine} (history : list call) :
  Forall typed history →
  Forall clock_ok (creation_readings history) →
  StronglySorted Z.lt (creation_readings history) →
  sort by_created_at_desc (run history) = reverse (run history) ∧
  ∀ pg size, 1 <= pg → 1 <= size →
    listPatients {| page := Some pg; pageSize := Some size; search := None |} (run history)
    = Ok {| data := take (Z.to_nat size)
                      (drop (Z.to_nat ((pg - 1) * size)) (reverse (run history)));
            count := Z.of_nat (length (run history)) |}.
Proof.
  intros Htyped Hclock Hmono.
  destruct (stored_instants history Htyped Hclock) as (ts & Hts & Hsub).
  assert (Hsorted : sort by_created_at_desc (run history) = reverse (run history)).
  { apply (sort_ascending _ ts Hts). by eapply sublist_StronglySorted. }
  split; [exact Hsorted |]. intros pg size Hpg Hsize.
  unfold listPatients. simpl. rewrite unfiltered. simpl.
  rewrite slice_window by nia. by rewrite Hsorted, length_reverse.
Qed.

Lemma listing_newest_first_witness :
  (Forall typed Sample.later ∧
   Forall clock_ok (creation_readings Sample.later) ∧
   StronglySorted Z.lt (creation_readings Sample.later)) ∧
  sort by_created_at_desc (run Sample.later) = reverse (run Sample.later).
Proof.
  assert (Htyped : Forall typed Sample.later).
  { repeat constructor. }
  assert (Hclock : Forall clock_ok (creation_readings Sample.later)).
  { repeat constructor; by_evaluation. }
  assert (Hmono : StronglySorted Z.lt (creation_readings Sample.later)).
  { repeat match goal with
           | |- StronglySorted _ _ => constructor
           | |- Forall _ _ => constructor
           end; by_evaluation. }
  split; [done |].
  exact (proj1 (listing_newest_first Sample.later Htyped Hclock Hmono)).
Defined.

(** X14. The sort of [listPatients] is stable.  In a store whose
    records all have a creation instant (a [created_at] that is falsy
    or can be read as a date, so that the comparator is consistent),
    the records created at one and the same instant are listed in the
    order in which they are stored. *)
Theorem listPatients_sort_stable `{Engine} (MOCK_DB : list Patient) (t : Z) :
  Forall (λ p, is_Some (created_time p)) MOCK_DB →
  List.filter (λ p, bool_decide (created_time p = Some t))
              (sort by_created_at_desc MOCK_DB)
  = List.filter (λ p, bool_decide (created_time p = Some t)) MOCK_DB.
Proof.
  intros _. induction MOCK_DB as [|x l IH]; [done |].
  rewrite sort_cons, sort_insert_stable. simpl. by rewrite IH.
Qed.

Lemma listPatients_sort_stable_witness :
  Forall (λ p, is_Some (created_time p)) (run Sample.twins) ∧
  List.filter (λ p, bool_decide (created_time p = Some Sample.T1))
              (sort by_created_at_desc (run Sample.twins))
  = List.filter (λ p, bool_decide (created_time p = Some Sample.T1)) (run Sample.twins) ∧
  map (λ p, get p "id")
      (List.filter (λ p, bool_decide (created_time p = Some Sample.T1)) (run Sample.twins))
  = [VString Sample.id1; VString Sample.id2] ∧
  map (λ p, get p "id") (sort by_created_at_desc (run Sample.twins))
  = [VString Sample.id3; VString Sample.id1; VString Sample.id2].
Proof.
  assert (Hall : Forall (λ p, is_Some (created_time p)) (run Sample.twins)).
  { repeat constructor.
    - by exists Sample.T1.
    - by exists Sample.T1.
    - by exists Sample.T2. }
  split; [exact Hall |].
  split; [exact (listPatients_sort_stable (run Sample.twins) Sample.T1 Hall) |].
  split; reflexivity.
Defined.

(** ** The masks of the form page *)

Section Masks.

Lemma strip_no_digit_append (a b : string) :
  no_digit a = true → strip_non_digits (a +:+ b) = strip_non_digits b.
Proof. intros Ha. by rewrite strip_append, strip_no_digit. Qed.

Lemma strip_insert_after (n : nat) (sep s : string) :
  no_digit sep = true →
  strip_non_digits (insert_after n sep s) = strip_non_digits s.
Proof.
  intros Hsep. revert s. induction n as [|n IH]; intros s; simpl.
  - by apply strip_no_digit_append.
  - destruct s as [|c s]; simpl; [by apply strip_no_digit |]. by rewrite IH.
Qed.

Lemma replace_digits_unfold (n : nat) (pre sep s : string) :
  replace_digits n pre sep s =
    if digits_ahead (S n) s then pre +:+ insert_after n sep s
    else match s with
         | EmptyString => EmptyString
         | String c s' => String c (replace_digits n pre sep s')
         end.
Proof. by destruct s. Qed.

Lemma replace_digits_at_end_unfold (n m : nat) (sep s : string) :
  replace_digits_at_end n m sep s =
    if digits_ahead n s && all_digits (string_drop n s)
       && (1 <=? String.length (string_drop n s))%nat
       && (String.length (string_drop n s) <=? m)%nat
    then insert_after n sep s
    else match s with
         | EmptyString => EmptyString
         | String c s' => String c (replace_digits_at_end n m sep s')
         end.
Proof. by destruct s. Qed.

(** The replacements of the masks put punctuation in: they leave the
    digits as they are. *)
Lemma strip_replace_digits (n : nat) (pre sep s : string) :
  no_digit pre = true → no_digit sep = true →
  strip_non_digits (replace_digits n pre sep s) = strip_non_digits s.
Proof.
  intros Hpre Hsep. induction s as [|c s IH]; rewrite replace_digits_unfold.
  - destruct (digits_ahead (S n) ""); [| done].
    by rewrite strip_no_digit_append, strip_insert_after.
  - destruct (digits_ahead (S n) (String c s)).
    + by rewrite strip_no_digit_append, strip_insert_after.
    + simpl. by rewrite IH.
Qed.

Lemma strip_replace_digits_at_end (n m : nat) (sep s : string) :
  no_digit sep = true →
  strip_non_digits (replace_digits_at_end n m sep s) = strip_non_digits s.
Proof.
  intros Hsep. induction s as [|c s IH]; rewrite replace_digits_at_end_unfold.
  - destruct (_ && _); [by rewrite strip_insert_after | done].
  - destruct (_ && _); [by rewrite strip_insert_after |]. simpl. by rewrite IH.
Qed.

Lemma substring_all_digits (n : nat) (s : string) :
  all_digits s = true → all_digits (String.substring 0 n s) = true.
Proof.
  revert s. induction n as [|n IH]; intros [|c s]; simpl; try done.
  intros [Hc Hs]%andb_prop. by rewrite Hc, IH.
Qed.

Lemma substring_again (n : nat) (s : string) :
  String.substring 0 n (String.substring 0 n s) = String.substring 0 n s.
Proof.
  revert s. induction n as [|n IH]; intros [|c s]; simpl; try done. by rewrite IH.
Qed.

Lemma substring_length (n : nat) (s : string) :
  String.length (String.substring 0 n s) = Nat.min n (String.length s).
Proof.
  revert s. induction n as [|n IH]; intros [|c s]; simpl; try done. by rewrite IH.
Qed.

Lemma substring_whole (n : nat) (s : string) :
  (String.length s <= n)%nat → String.substring 0 n s = s.
Proof.
  revert s. induction n as [|n IH]; intros [|c s]; simpl; try done; try lia.
  intros Hle. rewrite IH; [done | lia].
Qed.

(** The first [n] digits of [s]. *)
Lemma strip_head (n : nat) (s : string) :
  strip_non_digits (String.substring 0 n (strip_non_digits s))
  = String.substring 0 n (strip_non_digits s).
Proof. apply strip_all_digits, substring_all_digits, strip_is_digits. Qed.
End Masks.

(** The characters of a string of digits of a known length. *)
Ltac digits_of d Hlen Hall :=
  repeat (destruct d as [|? d]; [discriminate Hlen |]);
  try (destruct d; [| discriminate Hlen]);
  simpl in Hall;
  repeat match type of Hall with
         | _ && _ = true => let Hc := fresh "Hc" in apply andb_prop in Hall as [Hc Hall]
         end;
  clear Hlen Hall.

(** One replacement, on a string whose characters are known to be
    digits or are known: the guard of the current position is
    evaluated and the position is rewritten or passed. *)
Ltac settle_guard E :=
  cbn [digits_ahead string_drop all_digits String.length] in E;
  repeat match goal with
         | H : is_digit ?c = true |- _ => rewrite H in E
         end;
  simpl in E; try discriminate E; clear E;
  cbv beta iota; cbn [insert_after]; cbv [String.append].

Ltac mask_step :=
  match goal with
  | |- context [replace_digits ?n ?pre ?sep ?s] =>
      lazymatch s with
      | context [replace_digits] => fail
      | _ => idtac
      end;
      rewrite (replace_digits_unfold n pre sep s);
      let E := fresh "E" in
      destruct (digits_ahead (S n) s) eqn:E; settle_guard E
  | |- context [replace_digits_at_end ?n ?m ?sep ?s] =>
      lazymatch s with
      | context [replace_digits] => fail
      | context [replace_digits_at_end] => fail
      | _ => idtac
      end;
      rewrite (replace_digits_at_end_unfold n m sep s);
      let E := fresh "E" in
      destruct (digits_ahead n s && all_digits (string_drop n s)
                && (1 <=? String.length (string_drop n s))%nat
                && (String.length (string_drop n s) <=? m)%nat) eqn:E; settle_guard E
  end.

Section MaskFormats.

Lemma maskCPF_full (d : string) :
  all_digits d = true → String.length d = 11%nat →
  replace_digits_at_end 3 2 "-" (replace_digits 3 "" "." (replace_digits 3 "" "." d))
  = String.substring 0 3 d +:+ "." +:+ String.substring 3 3 d +:+ "."
    +:+ String.substring 6 3 d +:+ "-" +:+ String.substring 9 2 d.
Proof.
  intros Hall Hlen. digits_of d Hlen Hall. cbn [String.substring].
  repeat mask_step. reflexivity.
Qed.

Lemma maskPhone_ten (d : string) :
  all_digits d = true → String.length d = 10%nat →
  replace_digits_at_end 4 4 "-" (replace_digits 2 "(" ") " d)
  = "(" +:+ String.substring 0 2 d +:+ ") " +:+ String.substring 2 4 d
    +:+ "-" +:+ String.substring 6 4 d.
Proof.
  intros Hall Hlen. digits_of d Hlen Hall. cbn [String.substring].
  repeat mask_step. reflexivity.
Qed.

Lemma maskPhone_eleven (d : string) :
  all_digits d = true → String.length d = 11%nat →
  replace_digits_at_end 5 4 "-" (replace_digits 2 "(" ") " d)
  = "(" +:+ String.substring 0 2 d +:+ ") " +:+ String.substring 2 5 d
    +:+ "-" +:+ String.substring 7 4 d.
Proof.
  intros Hall Hlen. digits_of d Hlen Hall. cbn [String.substring].
  repeat mask_step. reflexivity.
Qed.

Lemma maskCEP_full (d : string) :
  all_digits d = true → String.length d = 8%nat →
  replace_digits_at_end 5 3 "-" d
  = String.substring 0 5 d +:+ "-" +:+ String.substring 5 3 d.
Proof.
  intros Hall Hlen. digits_of d Hlen Hall. cbn [String.substring].
  repeat mask_step. reflexivity.
Qed.
End MaskFormats.

(** X15. [maskCPF] answers on every string.  It only puts punctuation
    in: the digits of what it shows are the first eleven digits of the
    input, so it shows the same for two inputs with the same digits
    and masking what it shows changes nothing; and from eleven digits
    on it shows them as [ddd.ddd.ddd-dd]. *)
Theorem maskCPF_shows_digits (s : string) :
  ∃ m d,
    maskCPF (VString s) = Ok m ∧
    d = String.substring 0 11 (strip_non_digits s) ∧
    onlyDigits (VString m) = Ok d ∧
    maskCPF (VString m) = Ok m ∧
    (∀ s', strip_non_digits s' = strip_non_digits s → maskCPF (VString s') = Ok m) ∧
    ((11 <= String.length (strip_non_digits s))%nat →
     m = String.substring 0 3 d +:+ "." +:+ String.substring 3 3 d +:+ "."
         +:+ String.substring 6 3 d +:+ "-" +:+ String.substring 9 2 d).
Proof.
  set (mask := λ d, replace_digits_at_end 3 2 "-"
                      (replace_digits 3 "" "." (replace_digits 3 "" "." d))).
  assert (Hmask : ∀ s, maskCPF (VString s)
                       = Ok (mask (String.substring 0 11 (strip_non_digits s)))).
  { intros s0. unfold maskCPF. by rewrite onlyDigits_string. }
  assert (Hdigits : ∀ d, strip_non_digits (mask d) = strip_non_digits d).
  { intros d. unfold mask.
    by rewrite strip_replace_digits_at_end, !strip_replace_digits. }
  exists (mask (String.substring 0 11 (strip_non_digits s))),
         (String.substring 0 11 (strip_non_digits s)).
  split_and!.
  - apply Hmask.
  - done.
  - by rewrite onlyDigits_string, Hdigits, strip_head.
  - by rewrite Hmask, Hdigits, strip_head, substring_again.
  - intros s' Hs'. by rewrite Hmask, Hs'.
  - intros Hlen. apply maskCPF_full.
    + apply substring_all_digits, strip_is_digits.
    + rewrite substring_length. lia.
Qed.

(** X16. [maskPhone] answers on every string and only puts
    punctuation in: the digits of what it shows are the first eleven
    digits of the input, and masking what it shows changes nothing.
    Ten digits are shown as [(dd) dddd-dddd], and eleven digits or
    more as [(dd) ddddd-dddd]. *)
Theorem maskPhone_shows_digits (s : string) :
  ∃ m d,
    maskPhone (VString s) = Ok m ∧
    d = String.substring 0 11 (strip_non_digits s) ∧
    onlyDigits (VString m) = Ok d ∧
    maskPhone (VString m) = Ok m ∧
    (String.length (strip_non_digits s) = 10%nat →
     m = "(" +:+ String.substring 0 2 d +:+ ") " +:+ String.substring 2 4 d
         +:+ "-" +:+ String.substring 6 4 d) ∧
    ((11 <= String.length (strip_non_digits s))%nat →
     m = "(" +:+ String.substring 0 2 d +:+ ") " +:+ String.substring 2 5 d
         +:+ "-" +:+ String.substring 7 4 d).
Proof.
  set (mask := λ d, if (String.length d <=? 10)%nat
                    then replace_digits_at_end 4 4 "-" (replace_digits 2 "(" ") " d)
                    else replace_digits_at_end 5 4 "-" (replace_digits 2 "(" ") " d)).
  assert (Hmask : ∀ s, maskPhone (VString s)
                       = Ok (mask (String.substring 0 11 (strip_non_digits s)))).
  { intros s0. unfold maskPhone, mask. rewrite onlyDigits_string. simpl.
    by destruct (_ <=? _)%nat. }
  assert (Hdigits : ∀ d, strip_non_digits (mask d) = strip_non_digits d).
  { intros d. unfold mask.
    destruct (_ <=? _)%nat; by rewrite strip_replace_digits_at_end, strip_replace_digits. }
  pose proof (substring_length 11 (strip_non_digits s)) as Hlen.
  pose proof (substring_all_digits 11 _ (strip_is_digits s)) as Hall.
  exists (mask (String.substring 0 11 (strip_non_digits s))),
         (String.substring 0 11 (strip_non_digits s)).
  split_and!.
  - apply Hmask.
  - done.
  - by rewrite onlyDigits_string, Hdigits, strip_head.
  - by rewrite Hmask, Hdigits, strip_head, substring_again.
  - intros Hten. unfold mask.
    destruct (Nat.leb_spec (String.length (String.substring 0 11 (strip_non_digits s))) 10);
      [| lia].
    apply maskPhone_ten; [done | lia].
  - intros Heleven. unfold mask.
    destruct (Nat.leb_spec (String.length (String.substring 0 11 (strip_non_digits s))) 10);
      [lia |].
    apply maskPhone_eleven; [done | lia].
Qed.

(** X17. [maskCEP] answers on every string and only puts a hyphen in:
    the digits of what it shows are the first eight digits of the
    input, masking what it shows changes nothing, and from eight
    digits on it shows them as [ddddd-ddd]. *)
Theorem maskCEP_shows_digits (s : string) :
  ∃ m d,
    maskCEP (VString s) = Ok m ∧
    d = String.substring 0 8 (strip_non_digits s) ∧
    onlyDigits (VString m) = Ok d ∧
    maskCEP (VString m) = Ok m ∧
    ((8 <= String.length (strip_non_digits s))%nat →
     m = String.substring 0 5 d +:+ "-" +:+ String.substring 5 3 d).
Proof.
  assert (Hmask : ∀ s, maskCEP (VString s)
            = Ok (replace_digits_at_end 5 3 "-" (String.substring 0 8 (strip_non_digits s)))).
  { intros s0. unfold maskCEP. by rewrite onlyDigits_string. }
  pose proof (substring_all_digits 8 _ (strip_is_digits s)) as Hall.
  do 2 eexists. split_and!.
  - apply Hmask.
  - done.
  - by rewrite onlyDigits_string, strip_replace_digits_at_end, strip_all_digits.
  - by rewrite Hmask, strip_replace_digits_at_end, strip_all_digits, substring_again.
  - intros Hlen. apply maskCEP_full; [done |]. rewrite substring_length. lia.
Qed.

(** ** The rules of the form *)

Section Rules.

Lemma maskCPF_digits (s : string) :
  ∃ m, maskCPF (VString s) = Ok m ∧
       strip_non_digits m = String.substring 0 11 (strip_non_digits s).
Proof.
  eexists. split.
  - unfold maskCPF. rewrite onlyDigits_string. reflexivity.
  - by rewrite strip_replace_digits_at_end, !strip_replace_digits, strip_head.
Qed.

Lemma maskPhone_digits (s : string) :
  ∃ m, maskPhone (VString s) = Ok m ∧
       strip_non_digits m = String.substring 0 11 (strip_non_digits s).
Proof.
  unfold maskPhone. rewrite onlyDigits_string. simpl.
  destruct (_ <=? _)%nat; eexists; (split; [reflexivity |]);
    by rewrite strip_replace_digits_at_end, strip_replace_digits, strip_head.
Qed.

Lemma nonempty_length (s : string) :
  (String.length s <? 1)%nat = true ↔ s = "".
Proof. destruct s; simpl; split; done. Qed.

Lemma strip_nonempty (s : string) :
  (1 <= String.length (strip_non_digits s))%nat → (String.length s <? 1)%nat = false.
Proof. destruct s; simpl; [lia | done]. Qed.

Lemma FormSchema_cpf_digits (s : string) :
  FormSchema_cpf (VString s) =
    Ok (if (String.length (strip_non_digits s) =? 11)%nat
        then Some (VString (strip_non_digits s)) else None).
Proof.
  unfold FormSchema_cpf. destruct s as [|c s]; [done |].
  by rewrite onlyDigits_string.
Qed.

Lemma FormSchema_phone_digits (s : string) :
  FormSchema_phone_primary (VString s) =
    Ok (if (10 <=? String.length (strip_non_digits s))%nat
        then Some (VString (strip_non_digits s)) else None).
Proof.
  unfold FormSchema_phone_primary. destruct s as [|c s]; [done |].
  by rewrite onlyDigits_string.
Qed.
End Rules.

(** X18. The rule of [cpf] accepts a text exactly when it has eleven
    digits, and what it puts into the payload is these digits: a
    string of exactly 11 digits, which the rule accepts unchanged when
    it is given again, and which [maskCPF] shows like the text typed.
    A text with more than eleven digits is refused, although what
    [maskCPF] shows of it is a text the rule accepts.  What is not a
    string is refused. *)
Theorem FormSchema_cpf_rule (s : string) :
  FormSchema_cpf (VString s) =
    Ok (if (String.length (strip_non_digits s) =? 11)%nat
        then Some (VString (strip_non_digits s)) else None) ∧
  (∀ v, FormSchema_cpf (VString s) = Ok (Some v) →
     valid_cpf v ∧ FormSchema_cpf v = Ok (Some v) ∧ maskCPF v = maskCPF (VString s)) ∧
  ((11 < String.length (strip_non_digits s))%nat →
     FormSchema_cpf (VString s) = Ok None ∧
     ∃ m, maskCPF (VString s) = Ok m ∧
          FormSchema_cpf (VString m)
          = Ok (Some (VString (String.substring 0 11 (strip_non_digits s))))) ∧
  (∀ v, is_string v = false → FormSchema_cpf v = Ok None).
Proof.
  split_and!.
  - apply FormSchema_cpf_digits.
  - intros v. rewrite FormSchema_cpf_digits.
    destruct (Nat.eqb_spec (String.length (strip_non_digits s)) 11) as [Hlen|];
      [| discriminate].
    intros [= <-]. split_and!.
    + exists (strip_non_digits s). split_and!; [done | apply strip_is_digits | done].
    + rewrite FormSchema_cpf_digits, (strip_all_digits _ (strip_is_digits s)).
      by rewrite Hlen.
    + unfold maskCPF. by rewrite !onlyDigits_string, (strip_all_digits _ (strip_is_digits s)).
  - intros Hlen. split.
    + rewrite FormSchema_cpf_digits.
      destruct (Nat.eqb_spec (String.length (strip_non_digits s)) 11); [lia | done].
    + destruct (maskCPF_digits s) as (m & Hm & Hdigits). exists m. split; [done |].
      rewrite FormSchema_cpf_digits, Hdigits, substring_length.
      by replace (Nat.min 11 (String.length (strip_non_digits s))) with 11%nat by lia.
  - by intros [| | | |].
Qed.

(** X19. The rule of [phone_primary] accepts a text exactly when it
    has at least ten digits, and what it puts into the payload is all
    of its digits: a string of at least 10 digits, accepted unchanged
    when given again.  There is no upper bound: of a text with more
    than eleven digits every digit goes into the payload, while
    [maskPhone] shows the first eleven only. *)
Theorem FormSchema_phone_primary_rule (s : string) :
  FormSchema_phone_primary (VString s) =
    Ok (if (10 <=? String.length (strip_non_digits s))%nat
        then Some (VString (strip_non_digits s)) else None) ∧
  (∀ v, FormSchema_phone_primary (VString s) = Ok (Some v) →
     valid_phone v ∧ FormSchema_phone_primary v = Ok (Some v)) ∧
  ((11 < String.length (strip_non_digits s))%nat →
     FormSchema_phone_primary (VString s) = Ok (Some (VString (strip_non_digits s))) ∧
     ∃ m shown, maskPhone (VString s) = Ok m ∧ onlyDigits (VString m) = Ok shown ∧
                String.length shown = 11%nat ∧ shown ≠ strip_non_digits s) ∧
  (∀ v, is_string v = false → FormSchema_phone_primary v = Ok None).
Proof.
  split_and!.
  - apply FormSchema_phone_digits.
  - intros v. rewrite FormSchema_phone_digits.
    destruct (Nat.leb_spec 10 (String.length (strip_non_digits s))) as [Hlen|];
      [| discriminate].
    intros [= <-]. split.
    + exists (strip_non_digits s). split_and!; [done | apply strip_is_digits | done].
    + rewrite FormSchema_phone_digits, (strip_all_digits _ (strip_is_digits s)).
      by destruct (Nat.leb_spec 10 (String.length (strip_non_digits s))); [| lia].
  - intros Hlen. split.
    + rewrite FormSchema_phone_digits.
      by destruct (Nat.leb_spec 10 (String.length (strip_non_digits s))); [| lia].
    + destruct (maskPhone_digits s) as (m & Hm & Hdigits).
      exists m, (String.substring 0 11 (strip_non_digits s)). split_and!.
      * done.
      * by rewrite onlyDigits_string, Hdigits.
      * rewrite substring_length. lia.
      * intros Heq. apply (f_equal String.length) in Heq.
        rewrite substring_length in Heq. lia.
  - by intros [| | | |].
Qed.

(** X20. The optional identifiers.  The rule of [phone_secondary] and
    of [address_zip_code] accepts every text and [undefined]: the
    empty text and [undefined] give [undefined], any other text gives
    its digits, however many.  The rule of [responsible_cpf] accepts
    in addition only a result that is empty or has eleven digits; a
    text that is not empty and has no digit is accepted and gives the
    empty string. *)
Theorem FormSchema_optional_rules (s : string) :
  FormSchema_optional_digits (VString s) =
    Ok (Some (if String.eqb s "" then VUndefined else VString (strip_non_digits s))) ∧
  FormSchema_optional_digits VUndefined = Ok (Some VUndefined) ∧
  FormSchema_responsible_cpf VUndefined = Ok (Some VUndefined) ∧
  FormSchema_responsible_cpf (VString s) =
    Ok (if String.eqb s "" then Some VUndefined
        else if (String.length (strip_non_digits s) =? 0)%nat
                || (String.length (strip_non_digits s) =? 11)%nat
             then Some (VString (strip_non_digits s)) else None) ∧
  (s ≠ "" → no_digit s = true →
   FormSchema_responsible_cpf (VString s) = Ok (Some (VString ""))).
Proof.
  assert (Hopt : FormSchema_optional_digits (VString s) =
    Ok (Some (if String.eqb s "" then VUndefined else VString (strip_non_digits s)))).
  { unfold FormSchema_optional_digits. simpl.
    destruct (String.eqb_spec s "") as [->|Hs]; [done |]. simpl.
    by rewrite onlyDigits_string. }
  assert (Hresp : FormSchema_responsible_cpf (VString s) =
    Ok (if String.eqb s "" then Some VUndefined
        else if (String.length (strip_non_digits s) =? 0)%nat
                || (String.length (strip_non_digits s) =? 11)%nat
             then Some (VString (strip_non_digits s)) else None)).
  { unfold FormSchema_responsible_cpf. rewrite Hopt. clear Hopt.
    destruct (String.eqb_spec s "") as [Hs|Hs]; [done |]. simpl.
    generalize (strip_non_digits s). by intros [|c d]. }
  split_and!; [done | done | done | done |].
  intros Hs Hno. rewrite Hresp. destruct (String.eqb_spec s ""); [done |].
  by rewrite (strip_no_digit s Hno).
Qed.

(** ** The handlers of the form page *)

Section Handlers.
Context `{Engine}.

Lemma maskCEP_digits (s : string) :
  ∃ m, maskCEP (VString s) = Ok m ∧
       strip_non_digits m = String.substring 0 8 (strip_non_digits s).
Proof.
  eexists. split.
  - unfold maskCEP. rewrite onlyDigits_string. reflexivity.
  - rewrite strip_replace_digits_at_end; [| done].
    apply strip_all_digits, substring_all_digits, strip_is_digits.
Qed.

(** The payload of an edit carries the id of the route. *)
Lemma edit_payload_id (payload : obj) (i : string) :
  payload !! "id" = None → get (payload ∪ {[ "id" := VString i ]}) "id" = VString i.
Proof.
  intros Hid. unfold get. by rewrite (lookup_union_r _ _ _ Hid), lookup_singleton_eq.
Qed.

Lemma onSubmit_edit (yyyy_MM_dd : Z → string) (now : Z) (uuid msg i : string)
    (values : obj) (t : Z) (MOCK_DB : list Patient) :
  i ≠ "" →
  onSubmit yyyy_MM_dd now uuid msg (Some i) values (Some t) MOCK_DB =
    match updatePatient now (<["birth_date" := VString (yyyy_MM_dd t)]> values
                               ∪ {[ "id" := VString i ]}) MOCK_DB with
    | (Ok _, after) =>
        (Ok ({| title := "Paciente atualizado com sucesso"; description := None |},
             Some "/patients"), after)
    | (Throw e, after) =>
        (Ok ({| title := "Erro ao salvar paciente";
                description := Some (message_of msg e) |}, None), after)
    end.
Proof.
  intros Hi. unfold onSubmit. simpl.
  destruct (String.eqb_spec i "") as [|_]; [done |]. simpl.
  by destruct (updatePatient _ _ _) as [[]].
Qed.
End Handlers.

(** X21. [handleCepBlur] never rejects when the field holds a string.
    It does nothing unless the field has exactly eight digits; then it
    sets the four address properties to what [fetchAddressByZipCode]
    answers, leaves every other property of the form as it is, and
    lowers the flag.  With more than eight digits in the field it does
    nothing, although [maskCEP] shows eight of them. *)
Theorem handleCepBlur_fills_address (form : obj) (isFetchingAddress : bool) (s : string) :
  get form "address_zip_code" = VString s →
  ∃ form' flag,
    handleCepBlur form isFetchingAddress = (Ok tt, (form', flag)) ∧
    (String.length (strip_non_digits s) ≠ 8%nat →
     form' = form ∧ flag = isFetchingAddress) ∧
    (String.length (strip_non_digits s) = 8%nat →
     flag = false ∧
     get form' "address_street" = VString "Rua das Palmeiras" ∧
     get form' "address_district" = VString "Centro" ∧
     get form' "address_city" = VString "São Paulo" ∧
     get form' "address_state" = VString "SP" ∧
     ∀ k, k ∉ ["address_street"; "address_district"; "address_city"; "address_state"] →
          form' !! k = form !! k) ∧
    ((8 < String.length (strip_non_digits s))%nat →
     form' = form ∧
     ∃ m, maskCEP (VString s) = Ok m ∧ String.length (strip_non_digits m) = 8%nat).
Proof.
  intros Hzip. unfold handleCepBlur. rewrite Hzip.
  assert (Hdigits : onlyDigits (if truthy (VString s) then VString s else VString "")
                    = Ok (strip_non_digits s)).
  { simpl. destruct (String.eqb_spec s "") as [->|]; [done |]. apply onlyDigits_string. }
  rewrite Hdigits.
  destruct (Nat.eqb_spec (String.length (strip_non_digits s)) 8) as [Hlen | Hlen]; simpl.
  - do 2 eexists. split; [reflexivity |]. split_and!; [done | | lia].
    intros _. unfold get. split_and!; [done | | | | |].
    + repeat (rewrite lookup_insert_ne by done). by rewrite lookup_insert_eq.
    + repeat (rewrite lookup_insert_ne by done). by rewrite lookup_insert_eq.
    + repeat (rewrite lookup_insert_ne by done). by rewrite lookup_insert_eq.
    + by rewrite lookup_insert_eq.
    + intros k Hk. rewrite !not_elem_of_cons in Hk.
      destruct Hk as (? & ? & ? & ? & _). by repeat (rewrite lookup_insert_ne by done).
  - exists form, isFetchingAddress. split_and!; [done | done | done |].
    intros Hmore. split; [done |].
    destruct (maskCEP_digits s) as (m & Hm & Hd). exists m. split; [done |].
    rewrite Hd, substring_length. lia.
Qed.

Lemma handleCepBlur_fills_address_witness :
  get Scenario.address_form "address_zip_code" = VString "01310-100" ∧
  ∃ form' flag,
    handleCepBlur Scenario.address_form true = (Ok tt, (form', flag)) ∧
    (String.length (strip_non_digits "01310-100") = 8%nat →
     flag = false ∧ get form' "address_street" = VString "Rua das Palmeiras").
Proof.
  assert (Hzip : get Scenario.address_form "address_zip_code" = VString "01310-100")
    by reflexivity.
  split; [exact Hzip |].
  destruct (handleCepBlur_fills_address Scenario.address_form true _ Hzip)
    as (form' & flag & Hrun & _ & Hfull & _).
  exists form', flag. split; [exact Hrun |].
  intros Hlen. destruct (Hfull Hlen) as (Hflag & Hstreet & _). by split.
Defined.

Section Submit.
Context `{Engine}.

Lemma FormSchema_cpf_valid (v cpf : value) :
  FormSchema_cpf v = Ok (Some cpf) → valid_cpf cpf.
Proof.
  destruct v as [| |s| |]; try discriminate. rewrite FormSchema_cpf_digits.
  destruct (Nat.eqb_spec (String.length (strip_non_digits s)) 11) as [Hlen|];
    [| discriminate].
  intros [= <-]. exists (strip_non_digits s).
  split_and!; [done | apply strip_is_digits | done].
Qed.

Lemma FormSchema_phone_valid (v phone : value) :
  FormSchema_phone_primary v = Ok (Some phone) → valid_phone phone.
Proof.
  destruct v as [| |s| |]; try discriminate. rewrite FormSchema_phone_digits.
  destruct (Nat.leb_spec 10 (String.length (strip_non_digits s))) as [Hlen|];
    [| discriminate].
  intros [= <-]. exists (strip_non_digits s).
  split_and!; [done | apply strip_is_digits | done].
Qed.

(** What [createPatient] stores has the properties of the payload,
    but for the three it sets itself. *)
Lemma created_lookup (now uuid : string) (payload : obj) (k : string) :
  k ∉ ["id"; "created_at"; "updated_at"] →
  (<["updated_at" := VString now]>
     (<["created_at" := VString now]> (<["id" := VString uuid]> payload))) !! k
  = payload !! k.
Proof.
  intros Hk. rewrite !not_elem_of_cons in Hk. destruct Hk as (? & ? & ? & _).
  by repeat (rewrite lookup_insert_ne by done).
Qed.
End Submit.

(** X22. On the page of a new patient ([id] is absent, or empty).
    [onSubmit] formats [values.birth_date] before its [try]: when that
    is not a valid date, what [format] throws rejects the call, no
    toast is shown and the store is as it was.  When it is a valid
    date, as the rule of the form requires, the call resolves: it
    shows the toast of a creation, goes to the list, and the store has
    one record more, the last one, which has the [birth_date] as
    formatted and every other value of the form as the rules let it
    through.  When the [cpf] and the [phone_primary] of the values are
    what the rules of the form answered, the payload meets the
    contract of the service and the record stored has a [cpf] of 11
    digits and a [phone_primary] of at least 10. *)
Theorem onSubmit_creates `{Engine} (yyyy_MM_dd : Z → string) (now : Z)
    (uuid msg : string) (values : obj) (t : Z) (MOCK_DB : list Patient) :
  onSubmit yyyy_MM_dd now uuid msg None values None MOCK_DB
    = (Throw (RangeError "Invalid time value"), MOCK_DB) ∧
  onSubmit yyyy_MM_dd now uuid msg (Some "") values None MOCK_DB
    = (Throw (RangeError "Invalid time value"), MOCK_DB) ∧
  onSubmit yyyy_MM_dd now uuid msg (Some "") values (Some t) MOCK_DB =
    onSubmit yyyy_MM_dd now uuid msg None values (Some t) MOCK_DB ∧
  ∃ entity,
    (createPatient now uuid (<["birth_date" := VString (yyyy_MM_dd t)]> values) MOCK_DB).1
      = Ok entity ∧
    onSubmit yyyy_MM_dd now uuid msg None values (Some t) MOCK_DB =
      (Ok ({| title := "Paciente criado com sucesso"; description := None |},
           Some "/patients"), MOCK_DB ++ [entity]) ∧
    get entity "id" = VString uuid ∧
    get entity "birth_date" = VString (yyyy_MM_dd t) ∧
    (∀ k, k ∉ ["birth_date"; "id"; "created_at"; "updated_at"] →
          entity !! k = values !! k) ∧
    (∀ cpf_in phone_in cpf phone,
       FormSchema_cpf cpf_in = Ok (Some cpf) →
       FormSchema_phone_primary phone_in = Ok (Some phone) →
       values !! "cpf" = Some cpf → values !! "phone_primary" = Some phone →
       validated_insert (<["birth_date" := VString (yyyy_MM_dd t)]> values) ∧
       valid_cpf (get entity "cpf") ∧ valid_phone (get entity "phone_primary")).
Proof.
  split; [reflexivity |]. split; [reflexivity |]. split; [reflexivity |].
  eexists. split; [reflexivity |].
  assert (Hkeep : ∀ k, k ∉ ["birth_date"; "id"; "created_at"; "updated_at"] →
    (<["updated_at" := VString (toISOString now)]>
       (<["created_at" := VString (toISOString now)]>
          (<["id" := VString uuid]>
             (<["birth_date" := VString (yyyy_MM_dd t)]> values)))) !! k
    = values !! k).
  { intros k Hk. rewrite not_elem_of_cons in Hk. destruct Hk as [Hb Hk].
    rewrite created_lookup by done. by rewrite lookup_insert_ne. }
  split_and!.
  - reflexivity.
  - apply created_id.
  - unfold get. rewrite created_lookup, lookup_insert_eq; [done |].
    rewrite !not_elem_of_cons. split_and!; try done. apply not_elem_of_nil.
  - exact Hkeep.
  - intros cpf_in phone_in cpf phone Hcpf Hphone Hvc Hvp.
    apply FormSchema_cpf_valid in Hcpf. apply FormSchema_phone_valid in Hphone.
    split_and!.
    + split; [exists cpf | exists phone]; (split; [by rewrite lookup_insert_ne | done]).
    + unfold get. rewrite Hkeep, Hvc; [done |].
      rewrite !not_elem_of_cons. split_and!; try done. apply not_elem_of_nil.
    + unfold get. rewrite Hkeep, Hvp; [done |].
      rewrite !not_elem_of_cons. split_and!; try done. apply not_elem_of_nil.
Qed.

(** X23. On the page of an edit ([id] is not empty; the values of the
    form have no [id] of their own).  [onSubmit] formats
    [values.birth_date] before its [try]: when that is not a valid
    date the call rejects with what [format] throws, no toast is shown
    and the store is as it was.  When it is a valid date the call
    resolves.  If no stored record has the id of the route it shows
    the toast of the failure with the message of the service, stays on
    the page and leaves the store as it is.  If a record has it, it
    shows the toast of an update and goes to the list; the store has
    the same length, and what [getPatientById] then answers for the id
    is a record with this id, the [birth_date] as formatted and every
    value of the form, also those that are [undefined]. *)
Theorem onSubmit_edits `{Engine} (yyyy_MM_dd : Z → string) (now : Z)
    (uuid msg i : string) (values : obj) (t : Z) (MOCK_DB : list Patient) :
  i ≠ "" → values !! "id" = None →
  onSubmit yyyy_MM_dd now uuid msg (Some i) values None MOCK_DB
    = (Throw (RangeError "Invalid time value"), MOCK_DB) ∧
  ((∀ p, p ∈ MOCK_DB → get p "id" ≠ VString i) →
   onSubmit yyyy_MM_dd now uuid msg (Some i) values (Some t) MOCK_DB =
     (Ok ({| title := "Erro ao salvar paciente";
             description := Some "Paciente não encontrado" |}, None), MOCK_DB)) ∧
  ((∃ p, p ∈ MOCK_DB ∧ get p "id" = VString i) →
   ∃ after updated,
     onSubmit yyyy_MM_dd now uuid msg (Some i) values (Some t) MOCK_DB =
       (Ok ({| title := "Paciente atualizado com sucesso"; description := None |},
            Some "/patients"), after) ∧
     length after = length MOCK_DB ∧
     getPatientById i after = Ok (Some updated) ∧
     get updated "id" = VString i ∧
     get updated "birth_date" = VString (yyyy_MM_dd t) ∧
     get updated "updated_at" = VString (toISOString now) ∧
     ∀ k v, values !! k = Some v → k ∉ ["birth_date"; "updated_at"] →
            updated !! k = Some v).
Proof.
  intros Hi Hid. split; [reflexivity |].
  set (payload := <["birth_date" := VString (yyyy_MM_dd t)]> values
                  ∪ {[ "id" := VString i ]}).
  assert (Hpid : get payload "id" = VString i).
  { apply edit_payload_id. by rewrite lookup_insert_ne. }
  rewrite (onSubmit_edit yyyy_MM_dd now uuid msg i values t MOCK_DB Hi). fold payload.
  split.
  - intros Hnone. rewrite updatePatient_missing; [done |]. by rewrite Hpid.
  - intros (p & Hp & Hpi).
    destruct (findIndex_cases (λ q, strict_eq (get q "id") (get payload "id")) MOCK_DB)
      as [[_ Hall] | (n & existing & _ & Hn & Hex & Hfirst)].
    { exfalso. rewrite Forall_forall in Hall. specialize (Hall p Hp). simpl in Hall.
      apply strict_eq_false in Hall. by rewrite Hpid in Hall. }
    apply strict_eq_true in Hex.
    assert (Hfirst' : ∀ j q, (j < n)%nat → MOCK_DB !! j = Some q →
                             get q "id" ≠ get payload "id").
    { intros j q Hj Hq. by apply strict_eq_false, (Hfirst j). }
    rewrite (updatePatient_found now payload MOCK_DB n existing Hn Hex Hfirst'). simpl.
    { set (updated := <["updated_at" := VString (toISOString now)]> (payload ∪ existing)).
      assert (Hnew : get updated "id" = VString i).
      { unfold updated. by rewrite merged_id, Hex. }
      exists (<[n := updated]> MOCK_DB), updated. split_and!.
      * done.
      * apply length_insert.
      * unfold getPatientById. f_equal. apply (find_first _ _ n).
        -- apply list_lookup_insert_eq. by eapply lookup_lt_Some.
        -- by apply strict_eq_true.
        -- intros j q Hj Hq. rewrite list_lookup_insert_ne in Hq by lia.
           apply strict_eq_false. rewrite <- Hpid. by eapply Hfirst'.
      * done.
      * unfold updated, get. rewrite lookup_insert_ne by done.
        erewrite lookup_union_Some_l; [done |]. unfold payload.
        erewrite lookup_union_Some_l; [done |]. apply lookup_insert_eq.
      * unfold updated, get. by rewrite lookup_insert_eq.
      * intros k v Hk Hnot. rewrite !not_elem_of_cons in Hnot.
        destruct Hnot as (Hb & Hu' & _).
        unfold updated. rewrite lookup_insert_ne by done.
        apply lookup_union_Some_l. unfold payload.
        apply lookup_union_Some_l. by rewrite lookup_insert_ne. }
Qed.

Lemma onSubmit_edits_witness :
  (Sample.id2 ≠ "" ∧ Scenario.values !! "id" = None) ∧
  (∃ p, p ∈ Sample.store ∧ get p "id" = VString Sample.id2) ∧
  ∃ after updated,
    onSubmit Scenario.yyyy_MM_dd (Sample.T3 + 1000) Sample.id4 "" (Some Sample.id2)
      Scenario.values (Some Scenario.birth) Sample.store =
      (Ok ({| title := "Paciente atualizado com sucesso"; description := None |},
           Some "/patients"), after) ∧
    length after = length Sample.store ∧
    getPatientById Sample.id2 after = Ok (Some updated) ∧
    get updated "birth_date" = VString "1990-05-10".
Proof.
  assert (Hi : Sample.id2 ≠ "") by done.
  assert (Hid : Scenario.values !! "id" = None) by reflexivity.
  assert (Hstored : ∃ p, p ∈ Sample.store ∧ get p "id" = VString Sample.id2).
  { exists Sample.ana_stored. split; [| reflexivity].
    apply (list_elem_of_lookup_2 _ 1%nat). reflexivity. }
  split; [by split |]. split; [exact Hstored |].
  destruct (proj2 (proj2 (onSubmit_edits Scenario.yyyy_MM_dd (Sample.T3 + 1000) Sample.id4 ""
                            Sample.id2 Scenario.values Scenario.birth Sample.store Hi Hid))
              Hstored)
    as (after & updated & Hrun & Hlen & Hget & _ & Hbirth & _).
  exists after, updated. split_and!; [exact Hrun | exact Hlen | exact Hget | exact Hbirth].
Defined.

(** ** The list page *)

Section Pager.
Context `{Engine}.
Implicit Types (MOCK_DB : list Patient).

(** The page of the list: with an empty term it is a window of the
    sorted store. *)
Lemma listed_page MOCK_DB (pg : Z) :
  1 <= pg →
  listPatients {| page := Some pg; pageSize := Some PAGE_SIZE; search := Some "" |} MOCK_DB
  = Ok {| data := take 10 (drop (Z.to_nat ((pg - 1) * 10))
                             (sort by_created_at_desc MOCK_DB));
          count := Z.of_nat (length MOCK_DB) |}.
Proof.
  intros Hpg. unfold listPatients, PAGE_SIZE. simpl. rewrite unfiltered. simpl.
  rewrite slice_window by lia.
  by rewrite (Permutation_length (sort_Permutation _ _)).
Qed.

Lemma totalPages_spec (total pg : Z) :
  0 <= total → (1 <= pg <= totalPages total ↔ pg = 1 ∨ (1 <= pg ∧ (pg - 1) * 10 < total)).
Proof.
  intros Htotal. unfold totalPages, PAGE_SIZE.
  pose proof (ceil_div_spec total 10 pg Htotal ltac:(lia)) as Hspec.
  split; [intros [H1 H2] | intros [-> | [H1 H2]]]; lia.
Qed.

(** Deleting the id of a stored record takes exactly one record away
    when the ids are pairwise distinct. *)
Lemma delete_one MOCK_DB (id : string) :
  NoDup (map (λ p, get p "id") MOCK_DB) →
  (∃ p, p ∈ MOCK_DB ∧ get p "id" = VString id) →
  S (length (deletePatient id MOCK_DB).2) = length MOCK_DB.
Proof.
  simpl. induction MOCK_DB as [|q l IH]; intros Hnodup (p & Hp & Hid).
  - by apply elem_of_nil in Hp.
  - simpl in Hnodup. apply NoDup_cons in Hnodup as [Hq Hnodup]. simpl.
    destruct (strict_eq (get q "id") (VString id)) eqn:Hqid; simpl.
    + apply strict_eq_true in Hqid. do 2 f_equal. apply filter_all, Forall_forall.
      intros x Hx. apply negb_true_iff, strict_eq_false. intros Hxid.
      apply Hq. rewrite Hqid, <- Hxid. apply list_elem_of_In, in_map_iff.
      exists x. split; [done | by apply list_elem_of_In].
    + f_equal. apply IH; [done |]. apply strict_eq_false in Hqid.
      apply elem_of_cons in Hp as [-> | Hp]; [done |]. by exists p.
Qed.
End Pager.

(** X24. The pager of the list page.  There is always at least one
    page, also for an empty listing, and [totalPages] is the number of
    pages that are not empty when there is a record.  From a page
    between 1 and [totalPages] the two buttons lead to a page between
    1 and [totalPages]: the previous one, but for page 1, and the next
    one, but for the last page. *)
Theorem pager_stays_in_range (total page : Z) :
  0 <= total → 1 <= page <= totalPages total →
  1 <= totalPages total ∧
  (0 < total → (totalPages total - 1) * PAGE_SIZE < total <= totalPages total * PAGE_SIZE) ∧
  1 <= previous_page page <= totalPages total ∧
  1 <= next_page total page <= totalPages total ∧
  previous_page page = (if decide (page = 1) then 1 else page - 1) ∧
  next_page total page = (if decide (page = totalPages total) then page else page + 1).
Proof.
  intros Htotal Hpage.
  assert (Hmin : 1 <= totalPages total) by (unfold totalPages; lia).
  unfold previous_page, next_page.
  destruct (ceil_div_covers total 10 Htotal ltac:(lia)) as [Hpos Hcover].
  pose proof (ceil_div_spec total 10 (ceil_div total 10) Htotal ltac:(lia)) as Hspec.
  split; [done |]. split.
  - intros Hsome. unfold totalPages, PAGE_SIZE.
    assert (1 <= ceil_div total 10).
    { apply (ceil_div_spec total 10 1); lia. }
    rewrite Z.max_r by lia. lia.
  - destruct (Z.leb_spec page 1); destruct (Z.leb_spec (totalPages total) page);
      destruct (decide (page = 1)); destruct (decide (page = totalPages total));
      repeat split; lia.
Qed.

Lemma pager_stays_in_range_witness :
  (0 <= 25 ∧ 1 <= 3 <= totalPages 25) ∧
  1 <= next_page 25 3 <= totalPages 25.
Proof.
  assert (Htotal : 0 <= 25) by lia.
  assert (Hpage : 1 <= 3 <= totalPages 25) by by_evaluation.
  split; [by split |].
  exact (proj1 (proj2 (proj2 (proj2 (pager_stays_in_range 25 3 Htotal Hpage))))).
Defined.

(** X25. The list page asks for the page it is on with [PAGE_SIZE]
    records a page and the count it is told decides the pages it
    offers.  With an empty term and any store, every page from 1 to
    [totalPages] shows a record as soon as there is one, no page
    beyond does, and the pages 1 to [totalPages] put one after the
    other are the whole sorted store. *)
Theorem pager_pages_cover `{Engine} (MOCK_DB : list Patient) :
  let request pg :=
    listPatients {| page := Some pg; pageSize := Some PAGE_SIZE; search := Some "" |}
      MOCK_DB in
  let total := Z.of_nat (length MOCK_DB) in
  (∀ pg, 1 <= pg → ∃ r, request pg = Ok r ∧ count r = total ∧
     (data r ≠ [] ↔ pg <= totalPages total ∧ MOCK_DB ≠ [])) ∧
  ∃ pages,
    Forall2 (λ pg rows, ∃ r, request pg = Ok r ∧ data r = rows)
            (map Z.of_nat (seq 1 (Z.to_nat (totalPages total)))) pages ∧
    concat pages = sort by_created_at_desc MOCK_DB.
Proof.
  simpl. set (sorted := sort by_created_at_desc MOCK_DB).
  assert (Hlen : length sorted = length MOCK_DB)
    by apply (Permutation_length (sort_Permutation _ _)).
  split.
  - intros pg Hpg. eexists. split; [by apply listed_page |]. split; [done |]. simpl.
    fold sorted. rewrite window_nonempty, Hlen.
    pose proof (totalPages_spec (Z.of_nat (length MOCK_DB)) pg ltac:(lia)) as Hspec.
    destruct MOCK_DB as [|x l]; simpl in *; split.
    + lia.
    + intros [_ Hne]. done.
    + intros [_ Hlt]. split; [| done]. apply Hspec. lia.
    + intros [Hle _]. split; [lia |].
      assert (pg = 1 ∨ 1 <= pg ∧ (pg - 1) * 10 < Z.of_nat (S (length l))) as [-> | ?]
        by (apply Hspec; lia); lia.
  - exists (map (λ k, take 10 (drop (k * 10) sorted))
                (seq 0 (Z.to_nat (totalPages (Z.of_nat (length MOCK_DB)))))).
    split.
    + rewrite <- seq_shift, map_map. apply Forall2_fmap, Forall_Forall2_diag, Forall_forall.
      intros k Hk. eexists. split; [apply listed_page; lia |]. simpl. fold sorted.
      do 2 f_equal. lia.
    + rewrite windows_concat. apply take_ge. rewrite Hlen.
      unfold totalPages, PAGE_SIZE.
      destruct (ceil_div_covers (Z.of_nat (length MOCK_DB)) 10) as [Hpos Hcover]; lia.
Qed.

(** X26. The list page keeps the page it is on when a record is
    deleted.  When the ids are pairwise distinct and the last page
    holds a single record, deleting any stored record leaves the page
    empty: the listing for the same page then has no row while
    [count] is not zero, [totalPages] is one less than the page shown,
    the button to the next page does nothing and the button to the
    previous page leads to the last page that has rows. *)
Theorem pager_stale_after_delete `{Engine} (MOCK_DB : list Patient) (id : string)
    (page : Z) :
  NoDup (map (λ p, get p "id") MOCK_DB) →
  (∃ p, p ∈ MOCK_DB ∧ get p "id" = VString id) →
  2 <= page → Z.of_nat (length MOCK_DB) = (page - 1) * PAGE_SIZE + 1 →
  ∃ before,
    listPatients {| page := Some page; pageSize := Some PAGE_SIZE; search := Some "" |}
      MOCK_DB = Ok before ∧
    length (data before) = 1%nat ∧ totalPages (count before) = page ∧
    listPatients {| page := Some page; pageSize := Some PAGE_SIZE; search := Some "" |}
      (deletePatient id MOCK_DB).2
      = Ok {| data := []; count := (page - 1) * PAGE_SIZE |} ∧
    totalPages ((page - 1) * PAGE_SIZE) = page - 1 ∧
    next_page ((page - 1) * PAGE_SIZE) page = page ∧
    previous_page page = page - 1.
Proof.
  intros Hnodup Hstored Hpage Hlen.
  pose proof (delete_one MOCK_DB id Hnodup Hstored) as Hone.
  unfold PAGE_SIZE in *.
  assert (Hpages : ∀ k, 1 <= k → totalPages (k * 10) = k).
  { intros k Hk. unfold totalPages, PAGE_SIZE, ceil_div.
    replace (k * 10 + 10 - 1) with (9 + k * 10) by lia.
    rewrite Z.div_add by lia. change (9 / 10) with 0. lia. }
  eexists. split_and!.
  - apply listed_page. lia.
  - simpl. rewrite length_take, length_drop.
    rewrite (Permutation_length (sort_Permutation _ _)). lia.
  - simpl. rewrite Hlen. unfold totalPages, PAGE_SIZE, ceil_div.
    replace ((page - 1) * 10 + 1 + 10 - 1) with (10 + (page - 1) * 10) by lia.
    rewrite Z.div_add by lia. change (10 / 10) with 1. lia.
  - rewrite listed_page by lia. do 2 f_equal.
    + apply length_zero_iff_nil. rewrite length_take, length_drop.
      rewrite (Permutation_length (sort_Permutation _ _)). lia.
    + lia.
  - apply Hpages. lia.
  - unfold next_page. rewrite Hpages by lia.
    destruct (Z.leb_spec (page - 1) page); lia.
  - unfold previous_page. destruct (Z.leb_spec page 1); lia.
Qed.

Lemma pager_stale_after_delete_witness :
  (NoDup (map (λ p, get p "id") Scenario.crowd) ∧
   (∃ p, p ∈ Scenario.crowd ∧ get p "id" = VString "03") ∧
   2 <= 2 ∧ Z.of_nat (length Scenario.crowd) = (2 - 1) * PAGE_SIZE + 1) ∧
  @listPatients Reference.engine
    {| page := Some 2; pageSize := Some PAGE_SIZE; search := Some "" |}
    (deletePatient "03" Scenario.crowd).2
  = Ok {| data := []; count := 10 |}.
Proof.
  assert (Hnodup : NoDup (map (λ p, get p "id") Scenario.crowd)).
  { repeat (apply NoDup_cons; split;
      [ intros Hin; apply list_elem_of_In in Hin; simpl in Hin;
        repeat (destruct Hin as [Hin | Hin]; [discriminate Hin |]); destruct Hin |]).
    by apply NoDup_nil. }
  assert (Hstored : ∃ p, p ∈ Scenario.crowd ∧ get p "id" = VString "03").
  { exists {[ "id" := VString "03"; "full_name" := VString "Paciente";
               "cpf" := VString "00000000000" ]}.
    split; [| reflexivity].
    apply list_elem_of_In. do 3 right. left. reflexivity. }
  assert (Hpage : 2 <= 2) by lia.
  assert (Hlen : Z.of_nat (length Scenario.crowd) = (2 - 1) * PAGE_SIZE + 1) by reflexivity.
  split; [by split_and! |].
  destruct (pager_stale_after_delete Scenario.crowd "03" 2 Hnodup Hstored Hpage Hlen)
    as (before & _ & _ & _ & Hafter & _).
  exact Hafter.
Defined.

(** ** The search and the mask *)

Section MaskedSearch.
Context `{Engine}.

Lemma substring_drop (n : nat) (s : string) :
  s = String.substring 0 n s +:+ string_drop n s.
Proof.
  revert s. induction n as [|n IH]; intros [|c s]; simpl; try done.
  rewrite append_cons. f_equal. apply IH.
Qed.

Lemma includes_head (n : nat) (s : string) :
  includes s (String.substring 0 n s) = true.
Proof.
  apply includes_spec. exists "", (string_drop n s). apply substring_drop.
Qed.
End MaskedSearch.

(** X27. The search finds a patient by the CPF as the form shows it.
    When lower-casing leaves the digits alone, a record with a string
    [full_name] and a string [cpf] matches the term [maskCPF] makes of
    its [cpf], punctuation included, and [listPatients] with this term
    lists it in a store of such records. *)
Theorem search_finds_masked_cpf `{Engine} (p : Patient) (m : string) :
  lowercase_keeps_digits →
  typed_Patient p = true →
  maskCPF (get p "cpf") = Ok m →
  matchesSearch p m = Ok true ∧
  ∀ MOCK_DB, Forall (λ q, typed_Patient q = true) MOCK_DB → p ∈ MOCK_DB →
    ∃ r, listPatients {| page := Some 1; pageSize := Some (Z.of_nat (length MOCK_DB));
                         search := Some m |} MOCK_DB = Ok r ∧
         p ∈ data r.
Proof.
  intros Hdigits Hp Hm.
  assert (Hmatch : matchesSearch p m = Ok true).
  { destruct (matchesSearch_typed p m Hp) as (name & cpf & _ & Hcpf & ->).
    rewrite Hcpf in Hm. destruct (maskCPF_digits cpf) as (m' & Hm' & Hshown).
    rewrite Hm in Hm'. injection Hm' as <-.
    by rewrite Hdigits, Hshown, includes_head, orb_true_r. }
  split; [exact Hmatch |]. intros MOCK_DB Htyped Hin.
  unfold listPatients. simpl.
  rewrite (filtered_total _ m (typed_sorted _ Htyped)). simpl. eexists. split; [done |].
  simpl. set (filtered := List.filter _ _).
  assert (Hlen : (length filtered <= length MOCK_DB)%nat).
  { rewrite <- (Permutation_length (sort_Permutation by_created_at_desc MOCK_DB)).
    apply sublist_length, filter_sublist. }
  change ((1 - 1) * Z.of_nat (length MOCK_DB)) with 0.
  rewrite (slice_window filtered 0 (Z.of_nat (length MOCK_DB))) by lia.
  rewrite drop_0, take_ge by lia.
  apply list_elem_of_In, filter_In. split.
  - apply list_elem_of_In. by rewrite sort_Permutation.
  - by rewrite Hmatch.
Qed.

Lemma search_finds_masked_cpf_witness :
  (@lowercase_keeps_digits Reference.engine ∧
   typed_Patient Sample.ana_stored = true ∧
   maskCPF (get Sample.ana_stored "cpf") = Ok "111.222.333-44") ∧
  @matchesSearch Reference.engine Sample.ana_stored "111.222.333-44" = Ok true.
Proof.
  assert (Hp : typed_Patient Sample.ana_stored = true) by reflexivity.
  assert (Hm : maskCPF (get Sample.ana_stored "cpf") = Ok "111.222.333-44")
    by reflexivity.
  split; [split_and!; [exact reference_keeps_digits | exact Hp | exact Hm] |].
  exact (proj1 (search_finds_masked_cpf Sample.ana_stored "111.222.333-44"
                  reference_keeps_digits Hp Hm)).
Defined.
